(** * libblastrampoline: ABI autodetection and the exported symbol table

    A shallow embedding of [src/autodetection.c] and
    [src/libblastrampoline_trampdata.h].

    The detection routines talk to foreign code (the dynamic loader and the
    probed BLAS/LAPACK routines).  They are embedded as programs over an
    explicit set of events; an environment answers the events while a world
    is threaded through, and every run records the events in order.

    Conventions of the model: [int64_t] is a two's-complement 64-bit integer;
    [float] and [double] are IEEE-754 binary32 and binary64 with the default
    rounding (to nearest, ties to even).  In [exec] every foreign call
    returns; [exec_partial] also covers a routine that does not come back. *)

From Stdlib Require Import ZArith List String Ascii Bool Lia.
Import ListNotations.

Local Open Scope Z_scope.

(** ** Fixed-width integers *)

Module CInt.

(** Conversion of an integer constant to [int64_t] (two's complement). *)
Definition int64_t (z : Z) : Z := (z + 2 ^ 63) mod 2 ^ 64 - 2 ^ 63.

(** The 64-bit pattern of a value, i.e. its conversion to [uint64_t]. *)
Definition uint64_t (z : Z) : Z := z mod 2 ^ 64.

(** The low 32 bits of a 64-bit slot read as an [int32_t]. *)
Definition int32_t (z : Z) : Z := (z + 2 ^ 31) mod 2 ^ 32 - 2 ^ 31.

End CInt.

(** ** IEEE-754 binary interchange formats

    Storage is a bit pattern (a [Z]); a pattern denotes a value [fpval].
    [Fin neg m e] is [(-1)^neg * m * 2^e]. *)

Module IEEE754.

Inductive fpval : Type :=
| NaN
| Inf (neg : bool)
| Fin (neg : bool) (m : Z) (e : Z).

(** Value of a pattern with [ebits] exponent bits and [mbits] fraction bits. *)
Definition decode (ebits mbits : Z) (x : Z) : fpval :=
  let bits := x mod 2 ^ (1 + ebits + mbits) in
  let neg := Z.testbit bits (ebits + mbits) in
  let ex := Z.land (Z.shiftr bits mbits) (2 ^ ebits - 1) in
  let frac := Z.land bits (2 ^ mbits - 1) in
  let bias := 2 ^ (ebits - 1) - 1 in
  if ex =? 2 ^ ebits - 1 then (if frac =? 0 then Inf neg else NaN)
  else if ex =? 0 then Fin neg frac (1 - bias - mbits)
  else Fin neg (frac + 2 ^ mbits) (ex - bias - mbits).

(** [float] and [double]. *)
Definition binary32 : Z -> fpval := decode 8 23.
Definition binary64 : Z -> fpval := decode 11 52.

(** [m / 2^d] rounded to nearest, ties to even ([1 <= d]). *)
Definition round_nearest_even (m d : Z) : Z :=
  let q := m / 2 ^ d in
  let r := m mod 2 ^ d in
  let half := 2 ^ (d - 1) in
  if r <? half then q
  else if half <? r then q + 1
  else if Z.even q then q else q + 1.

(** Conversion [double -> float] in the default rounding mode: the value is
    rounded to 24 significant bits, not below the exponent [-149] of the
    smallest subnormal, and overflows to infinity from [2^128] on. *)
Definition to_binary32 (v : fpval) : fpval :=
  match v with
  | Fin neg m e =>
      let e' := Z.max (-149) (Z.log2 m + 1 + e - 24) in
      let q := if e' <=? e then m * 2 ^ (e - e')
               else round_nearest_even m (e' - e) in
      if 2 ^ 277 <=? q * 2 ^ (e' + 149) then Inf neg else Fin neg q e'
  | _ => v
  end.

(** The C comparison [a == b] on values (the promotion [float -> double]
    is exact, hence the identity on values). *)
Definition fp_eqb (a b : fpval) : bool :=
  match a, b with
  | Fin s1 m1 e1, Fin s2 m2 e2 =>
      let e := Z.min e1 e2 in
      let x1 := m1 * 2 ^ (e1 - e) in
      let x2 := m2 * 2 ^ (e2 - e) in
      (x1 =? x2) && ((x1 =? 0) || Bool.eqb s1 s2)
  | Inf s1, Inf s2 => Bool.eqb s1 s2
  | _, _ => false
  end.

(** Patterns of the literals used by the probes. *)
Definition float_1_0 : Z := 0x3F800000.           (* 1.0f *)
Definition float_2_0 : Z := 0x40000000.           (* 2.0f *)
Definition float_0_5 : Z := 0x3F000000.           (* (float).5 *)
Definition float_0_25 : Z := 0x3E800000.          (* 0.25f *)
Definition double_0_5 : Z := 0x3FE0000000000000.  (* .5 *)
Definition double_0_25 : Z := 0x3FD0000000000000. (* 0.25 *)

End IEEE754.

(** ** The foreign interface *)

(** A [void *] obtained from the loader: the library handle, and the address
    of a resolved symbol.  A NULL result is [None]. *)
Definition Handle : Type := Z.
Definition Addr : Type := Z.

(** The five locals of [autodetect_f2c] whose addresses are handed to
    [sdot]: [n], [A], [inca], [B] and [incb]. *)
Record SdotLocals : Type := {
  loc_n : Z;
  loc_A : list Z;
  loc_inca : Z;
  loc_B : list Z;
  loc_incb : Z
}.

(** What the detection code asks of its surroundings.  Each foreign routine
    is entered through a function pointer cast to the signature written in
    the source; the arguments are the contents of the pointed-to objects and
    the answer is what the source reads back, or hands on, afterwards.  The
    locals given to [sdot] are given again to a second call, so an [sdot]
    call answers with their contents after the call as well. *)
Inductive Event : Type -> Type :=
| Lookup_symbol (handle : Handle) (symbol_name : string) : Event (option Addr)
| Push_fake_lsame : Event unit
| Pop_fake_lsame : Event unit
    (* called as a function returning int64_t: the returned register *)
| Call_isamax (f : Addr) (n : Z) (X : list Z) (incx : Z) : Event Z
    (* called as a function returning void: the contents of [info]
       after the call *)
| Call_dpotrf (f : Addr) (uplo : ascii) (m : Z) (testmat : list (option Z))
              (lda info : Z) : Event Z
    (* called as a function returning float: the 32-bit pattern returned,
       and the locals as the call left them *)
| Call_sdot_plain (f : Addr) (n : Z) (A : list Z) (inca : Z)
                  (B : list Z) (incb : Z) : Event (Z * SdotLocals)
    (* called as a function returning double: the 64-bit pattern returned,
       and the locals as the call left them *)
| Call_sdot_f2c (f : Addr) (n : Z) (A : list Z) (inca : Z)
                (B : list Z) (incb : Z) : Event (Z * SdotLocals).

(** Programs: return a value, or raise an event and continue with its answer. *)
Inductive Prog (R : Type) : Type :=
| Ret (r : R)
| Vis (X : Type) (e : Event X) (k : X -> Prog R).

Arguments Ret {R} r.
Arguments Vis {R X} e k.

Fixpoint bind {A B : Type} (p : Prog A) (f : A -> Prog B) : Prog B :=
  match p with
  | Ret a => f a
  | Vis e k => Vis e (fun x => bind (k x) f)
  end.

Definition trigger {X : Type} (e : Event X) : Prog X := Vis e Ret.

Declare Scope prog_scope.
Delimit Scope prog_scope with prog.
Notation "x <- c1 ;; c2" := (bind c1 (fun x => c2))
  (at level 61, c1 at next level, right associativity) : prog_scope.
Notation "c1 ;; c2" := (bind c1 (fun _ => c2))
  (at level 61, right associativity) : prog_scope.

(** One recorded event with the answer it got. *)
Inductive Logged : Type :=
| Log (X : Type) (e : Event X) (x : X).

Arguments Log {X} e x.

(** Whether a recorded event entered a routine of the probed library. *)
Definition is_foreign_call (l : Logged) : bool :=
  match l with
  | Log (Call_isamax _ _ _ _) _ => true
  | Log (Call_dpotrf _ _ _ _ _ _) _ => true
  | Log (Call_sdot_plain _ _ _ _ _ _) _ => true
  | Log (Call_sdot_f2c _ _ _ _ _ _) _ => true
  | _ => false
  end.

(** ** Environments and runs *)

Section Run.

(** The state of everything outside the detection code. *)
Variable World : Type.

(** An environment: the loader's symbol resolution (a function of handle
    and name) and the behaviour of the other events on the world. *)
Record Env : Type := {
  env_lookup_symbol : Handle -> string -> option Addr;
  env_push_fake_lsame : World -> World;
  env_pop_fake_lsame : World -> World;
  env_isamax : Addr -> Z -> list Z -> Z -> World -> Z * World;
  env_dpotrf : Addr -> ascii -> Z -> list (option Z) -> Z -> Z ->
               World -> Z * World;
  env_sdot_plain : Addr -> Z -> list Z -> Z -> list Z -> Z ->
                   World -> Z * SdotLocals * World;
  env_sdot_f2c : Addr -> Z -> list Z -> Z -> list Z -> Z ->
                 World -> Z * SdotLocals * World
}.

Variable env : Env.

Definition answer {X : Type} (e : Event X) : World -> X * World :=
  match e in Event X return World -> X * World with
  | Lookup_symbol h s => fun w => (env_lookup_symbol env h s, w)
  | Push_fake_lsame => fun w => (tt, env_push_fake_lsame env w)
  | Pop_fake_lsame => fun w => (tt, env_pop_fake_lsame env w)
  | Call_isamax f n X incx => env_isamax env f n X incx
  | Call_dpotrf f uplo m a lda info => env_dpotrf env f uplo m a lda info
  | Call_sdot_plain f n A inca B incb => env_sdot_plain env f n A inca B incb
  | Call_sdot_f2c f n A inca B incb => env_sdot_f2c env f n A inca B incb
  end.

(** The outcome of a run: the events in order, the final world, the result. *)
Record Outcome (R : Type) : Type := {
  trace : list Logged;
  world : World;
  result : R
}.

Arguments trace {R} o.
Arguments world {R} o.
Arguments result {R} o.

Fixpoint exec {R : Type} (p : Prog R) (w : World) : Outcome R :=
  match p with
  | Ret r => {| trace := []; world := w; result := r |}
  | Vis e k =>
      let '(x, w') := answer e w in
      let o := exec (k x) w' in
      {| trace := Log e x :: trace o; world := world o; result := result o |}
  end.

End Run.

Arguments env_lookup_symbol {World} e _ _.
Arguments env_push_fake_lsame {World} e _.
Arguments env_pop_fake_lsame {World} e _.
Arguments env_isamax {World} e _ _ _ _ _.
Arguments env_dpotrf {World} e _ _ _ _ _ _ _.
Arguments env_sdot_plain {World} e _ _ _ _ _ _ _.
Arguments env_sdot_f2c {World} e _ _ _ _ _ _ _.
Arguments answer {World} env {X} e _.
Arguments trace {World R} o.
Arguments world {World R} o.
Arguments result {World R} o.
Arguments exec {World} env {R} p w.

(** ** src/autodetection.c *)

Local Open Scope prog_scope.

(** The external routines of the source, as programs. *)

Definition lookup_symbol (handle : Handle) (symbol_name : string)
  : Prog (option Addr) :=
  trigger (Lookup_symbol handle symbol_name).

Definition push_fake_lsame : Prog unit := trigger Push_fake_lsame.
Definition pop_fake_lsame : Prog unit := trigger Pop_fake_lsame.

(** A statement compiled only under [#ifdef flag]. *)
Definition ifdef (flag : bool) (stmt : Prog unit) : Prog unit :=
  if flag then stmt else Ret tt.

(** [sprintf(symbol_name, "%s%s", a, b)]; the buffer [symbol_name] of
    [MAX_SYMBOL_LEN] characters (a constant declared outside [src/]) is taken
    to be large enough for the name. *)
Definition sprintf (a b : string) : string := (a ++ b)%string.

(** Calls through the cast function pointers.  The 64-bit return register is
    stored in an [int64_t]; a [float] or [double] return is the value of the
    returned pattern. *)
Definition isamax (f : Addr) (n : Z) (X : list Z) (incx : Z) : Prog Z :=
  r <- trigger (Call_isamax f n X incx) ;; Ret (CInt.int64_t r).

Definition dpotrf (f : Addr) (uplo : ascii) (m : Z) (testmat : list (option Z))
  (lda info : Z) : Prog Z :=
  r <- trigger (Call_dpotrf f uplo m testmat lda info) ;; Ret (CInt.int64_t r).

Definition sdot_plain (f : Addr) (n : Z) (A : list Z) (inca : Z) (B : list Z)
  (incb : Z) : Prog (IEEE754.fpval * SdotLocals) :=
  r <- trigger (Call_sdot_plain f n A inca B incb) ;;
  Ret (IEEE754.binary32 (fst r), snd r).

Definition sdot_f2c (f : Addr) (n : Z) (A : list Z) (inca : Z) (B : list Z)
  (incb : Z) : Prog (IEEE754.fpval * SdotLocals) :=
  r <- trigger (Call_sdot_f2c f n A inca B incb) ;;
  Ret (IEEE754.binary64 (fst r), snd r).

(** The two tables of [autodetect_symbol_suffix]. *)
Definition symbol_names : list string := ["isamax_"; "dpotrf_"]%string.

Definition suffixes : list string :=
  [""; "_"; "__"; "64_"; "_64__"; "__64___"]%string.

(** The inner loop over [suffixes]: [Some suffix] is the [return] taken inside
    the loop, [None] is the loop running to its end. *)
Fixpoint suffix_loop (handle : Handle) (symbol : string) (sufs : list string)
  : Prog (option string) :=
  match sufs with
  | [] => Ret None
  | suffix :: sufs' =>
      let symbol_name := sprintf symbol suffix in
      addr <- lookup_symbol handle symbol_name ;;
      match addr with
      | Some _ => Ret (Some suffix)
      | None => suffix_loop handle symbol sufs'
      end
  end.

(** The outer loop over [symbol_names], ending in [return NULL]. *)
Fixpoint symbol_loop (handle : Handle) (symbols : list string)
  : Prog (option string) :=
  match symbols with
  | [] => Ret None
  | symbol :: symbols' =>
      found <- suffix_loop handle symbol suffixes ;;
      match found with
      | Some suffix => Ret (Some suffix)
      | None => symbol_loop handle symbols'
      end
  end.

Definition autodetect_symbol_suffix (handle : Handle) : Prog (option string) :=
  symbol_loop handle symbol_names.

Section Autodetection.

(** Build-time configuration: the [LBT_DEEPBINDLESS] switch and the result
    codes, all of them defined in headers outside [src/]. *)
Variable LBT_DEEPBINDLESS : bool.
Variables LBT_INTERFACE_LP64 LBT_INTERFACE_ILP64 LBT_INTERFACE_UNKNOWN : Z.
Variables LBT_F2C_PLAIN LBT_F2C_REQUIRED LBT_F2C_UNKNOWN : Z.

Definition autodetect_blas_interface (isamax_addr : Addr) : Prog Z :=
  let n := CInt.int64_t 0xffffffff00000003 in
  let X := [IEEE754.float_1_0; IEEE754.float_2_0; IEEE754.float_1_0] in
  let incx := 1 in
  ifdef LBT_DEEPBINDLESS push_fake_lsame ;;
  max_idx <- isamax isamax_addr n X incx ;;
  ifdef LBT_DEEPBINDLESS pop_fake_lsame ;;
  if max_idx =? 0 then Ret LBT_INTERFACE_ILP64
  else if max_idx =? 2 then Ret LBT_INTERFACE_LP64
  else Ret LBT_INTERFACE_UNKNOWN.

Definition autodetect_lapack_interface (dpotrf_addr : Addr) : Prog Z :=
  (* double testmat[4]; is left uninitialised *)
  let testmat : list (option Z) := [None; None; None; None] in
  let uplo := "U"%char in
  let m := 2 in
  let lda := 0 in
  let info := 0 in
  info <- dpotrf dpotrf_addr uplo m testmat lda info ;;
  (* info == 0xfffffffffffffffc compares as unsigned 64-bit values *)
  if CInt.uint64_t info =? 0xfffffffffffffffc then Ret LBT_INTERFACE_ILP64
  else if info =? 0x00000000fffffffc then Ret LBT_INTERFACE_LP64
  else Ret LBT_INTERFACE_UNKNOWN.

Definition autodetect_interface (handle : Handle) (suffix : string)
  : Prog Z :=
  let symbol_name := sprintf "isamax_" suffix in
  isamax <- lookup_symbol handle symbol_name ;;
  match isamax with
  | Some isamax => autodetect_blas_interface isamax
  | None =>
      let symbol_name := sprintf "dpotrf_" suffix in
      dpotrf <- lookup_symbol handle symbol_name ;;
      match dpotrf with
      | Some dpotrf => autodetect_lapack_interface dpotrf
      | None => Ret LBT_INTERFACE_UNKNOWN
      end
  end.

(** Compiled under [#ifdef F2C_AUTODETECTION]. *)
Definition autodetect_f2c (handle : Handle) (suffix : string) : Prog Z :=
  let symbol_name := sprintf "sdot_" suffix in
  sdot_addr <- lookup_symbol handle symbol_name ;;
  match sdot_addr with
  | None => Ret 0
  | Some sdot_addr =>
      let A := [IEEE754.float_0_5] in
      let B := [IEEE754.float_0_5] in
      let n := 1 in
      let inca := 1 in
      let incb := 1 in
      first <- sdot_plain sdot_addr n A inca B incb ;;
      let plain := fst first in
      (* the second call is handed the addresses of the same locals *)
      let n := loc_n (snd first) in
      let A := loc_A (snd first) in
      let inca := loc_inca (snd first) in
      let B := loc_B (snd first) in
      let incb := loc_incb (snd first) in
      second <- sdot_f2c sdot_addr n A inca B incb ;;
      (* float f2c = ...: the double is converted to float *)
      let f2c := IEEE754.to_binary32 (fst second) in
      if IEEE754.fp_eqb plain (IEEE754.binary64 IEEE754.double_0_25)
      then Ret LBT_F2C_PLAIN
      else if IEEE754.fp_eqb f2c (IEEE754.binary64 IEEE754.double_0_25)
      then Ret LBT_F2C_REQUIRED
      else Ret LBT_F2C_UNKNOWN
  end.

End Autodetection.

(** ** Candidate order of the suffix search, in the words of the specification

    The stems in order, and for each stem the six suffixes in order. *)

Definition candidate_order : list (string * string) :=
  flat_map (fun stem => map (fun suffix => (stem, suffix)) suffixes)
           symbol_names.

Definition candidate_name (c : string * string) : string :=
  (fst c ++ snd c)%string.

(** The elements of a list up to and including the first one satisfying [p]. *)
Fixpoint upto_first {A : Type} (p : A -> bool) (l : list A) : list A :=
  match l with
  | [] => []
  | x :: l' => if p x then [x] else x :: upto_first p l'
  end.

Section Resolver.

Variable World : Type.
Variable env : Env World.
Variable handle : Handle.

(** Whether the loader resolves the name of a candidate. *)
Definition resolves (c : string * string) : bool :=
  match env_lookup_symbol env handle (candidate_name c) with
  | Some _ => true
  | None => false
  end.

(** The record of one query of the loader. *)
Definition query (c : string * string) : Logged :=
  Log (Lookup_symbol handle (candidate_name c))
      (env_lookup_symbol env handle (candidate_name c)).

End Resolver.

Arguments resolves {World} env handle c.
Arguments query {World} env handle c.

(** The push/pop discipline of the [lsame_] substitution on a trace: the
    substitution is installed only by a push that is directly followed by one
    [isamax] call and the pop, and nothing else is called [isamax], pushed or
    popped. *)
Fixpoint lsame_scoped (tr : list Logged) : bool :=
  match tr with
  | [] => true
  | Log Push_fake_lsame _ :: tr1 =>
      match tr1 with
      | Log (Call_isamax _ _ _ _) _ :: Log Pop_fake_lsame _ :: tr3 =>
          lsame_scoped tr3
      | _ => false
      end
  | Log Pop_fake_lsame _ :: _ => false
  | Log (Call_isamax _ _ _ _) _ :: _ => false
  | _ :: tr1 => lsame_scoped tr1
  end.

(** ** src/libblastrampoline_trampdata.h *)

Section Trampdata.

(** The registry: the routine names that the X-macro [EXPORTED_FUNCS] of
    [exported_funcs.inc] (a generated file outside [src/]) lists, in its
    order. *)
Variable exported_funcs_inc : list string.

(** [EXPORTED_FUNCS(XX)]: [XX] applied to every name of the registry. *)
Definition EXPORTED_FUNCS {A : Type} (XX : string -> A) : list A :=
  map XX exported_funcs_inc.

(** The holder variables [name##_addr] and [name##64__addr], by name. *)
Definition addr_holder (name : string) : string := (name ++ "_addr")%string.
Definition addr_holder_64 (name : string) : string :=
  (name ++ "64__addr")%string.

(** The declarations of lines 8-11. *)
Definition holder_declarations : list string :=
  EXPORTED_FUNCS addr_holder ++ EXPORTED_FUNCS addr_holder_64.

(** The three arrays.  An entry is a pointer: [None] is NULL, [Some s] in
    [exported_func_names] points to the string [s], and [Some v] in the
    address arrays is the address of the holder variable [v]. *)
Definition exported_func_names : list (option string) :=
  EXPORTED_FUNCS (fun name => Some name) ++ [None].

Definition exported_func32_addrs : list (option string) :=
  EXPORTED_FUNCS (fun name => Some (addr_holder name)) ++ [None].

Definition exported_func64_addrs : list (option string) :=
  EXPORTED_FUNCS (fun name => Some (addr_holder_64 name)) ++ [None].

End Trampdata.

(** ** The calling-convention classification, in the words of the
    specification

    The narrow and the wide reading of what [sdot] returned are each compared
    with [0.25] as they are. *)
Definition f2c_as_specified (PLAIN REQUIRED UNKNOWN : Z)
  (narrow wide : IEEE754.fpval) : Z :=
  let quarter := IEEE754.binary64 IEEE754.double_0_25 in
  if IEEE754.fp_eqb narrow quarter then PLAIN
  else if IEEE754.fp_eqb wide quarter then REQUIRED
  else UNKNOWN.

(** The locals as a routine leaves them that only reads its arguments. *)
Definition untouched (n : Z) (A : list Z) (inca : Z) (B : list Z) (incb : Z)
  : SdotLocals :=
  {| loc_n := n; loc_A := A; loc_inca := inca; loc_B := B; loc_incb := incb |}.

(** ** Fake libraries

    A stateless library for examples: the names it exports, the index its
    [isamax] returns, the pattern its [dpotrf] leaves in [info], and what its
    [sdot] returns when read as a [float] and when read as a [double]; its
    [sdot] only reads its arguments. *)
Definition fake_library (exports : string -> option Addr)
  (isamax_ret dpotrf_info sdot_float sdot_double : Z) : Env unit := {|
  env_lookup_symbol := fun _ name => exports name;
  env_push_fake_lsame := fun w => w;
  env_pop_fake_lsame := fun w => w;
  env_isamax := fun _ _ _ _ w => (isamax_ret, w);
  env_dpotrf := fun _ _ _ _ _ _ w => (dpotrf_info, w);
  env_sdot_plain := fun _ n A inca B incb w =>
    (sdot_float, untouched n A inca B incb, w);
  env_sdot_f2c := fun _ n A inca B incb w =>
    (sdot_double, untouched n A inca B incb, w)
|}.

(** The symbol table with the single entry [name]. *)
Definition exports_only (name : string) (a : Addr) : string -> option Addr :=
  fun s => if String.eqb s name then Some a else None.

(** A library that knows the single name [isamax__64__]. *)
Definition only_isamax_64 : Env unit :=
  fake_library (exports_only "isamax__64__" 4096) 0 0 0 0.

(** A library without any of the probed names. *)
Definition no_exports : Env unit := fake_library (fun _ => None) 0 0 0 0.

(** An [sdot_] whose 64-bit return register holds the double next above
    [0.25]; the [float] reading sees the low half of the register. *)
Definition sdot_register : Z := 0x3FD0000000000001.

Definition sdot_above_quarter : Env unit :=
  fake_library (exports_only "sdot_" 4096) 0 0
               (sdot_register mod 2 ^ 32) sdot_register.

(** An [sdot_] answering [0.25] under either signature. *)
Definition sdot_quarter_both : Env unit :=
  fake_library (exports_only "sdot_" 4096) 0 0
               IEEE754.float_0_25 IEEE754.double_0_25.

(** ** Observations on traces and memory *)

(** Whether a recorded event installs or removes the [lsame_] substitution. *)
Definition is_lsame_swap (l : Logged) : bool :=
  match l with
  | Log Push_fake_lsame _ => true
  | Log Pop_fake_lsame _ => true
  | _ => false
  end.

(** The names handed to the loader, in order. *)
Definition queried_names (tr : list Logged) : list string :=
  flat_map (fun l => match l with
                     | Log (Lookup_symbol _ name) _ => [name]
                     | _ => []
                     end) tr.

(** The contents of a 64-bit slot after a routine with 32-bit integers has
    stored the word [v] at the slot's address (little-endian: the low half
    is overwritten, the high half is kept). *)
Definition store_low32 (slot v : Z) : Z :=
  CInt.uint64_t slot / 2 ^ 32 * 2 ^ 32 + v mod 2 ^ 32.

(** The symbol table given by an association list. *)
Definition exports_of (l : list (string * Addr)) : string -> option Addr :=
  fun s => option_map snd (find (fun p => String.eqb (fst p) s) l).

(** A library with the LAPACK name [dpotrf_] and the BLAS name [isamax_64_]. *)
Definition mixed_exports : Env unit :=
  fake_library (exports_of [("dpotrf_", 4096); ("isamax_64_", 8192)]%string)
               0 0 0 0.

(** A library with 32-bit integers whose [dpotrf_] reports the error [-4]
    by a 32-bit store to [info]. *)
Definition dpotrf_lp64 : Env unit := {|
  env_lookup_symbol := fun _ name => exports_only "dpotrf_" 4096 name;
  env_push_fake_lsame := fun w => w;
  env_pop_fake_lsame := fun w => w;
  env_isamax := fun _ _ _ _ w => (0, w);
  env_dpotrf := fun _ _ _ _ _ info w => (store_low32 info (-4), w);
  env_sdot_plain := fun _ n A inca B incb w =>
    (0, untouched n A inca B incb, w);
  env_sdot_f2c := fun _ n A inca B incb w =>
    (0, untouched n A inca B incb, w)
|}.

(** ** Runs in which a foreign routine may not come back *)

(** The routine that a foreign call enters. *)
Definition callee {X : Type} (e : Event X) : option Addr :=
  match e with
  | Call_isamax f _ _ _ => Some f
  | Call_dpotrf f _ _ _ _ _ => Some f
  | Call_sdot_plain f _ _ _ _ _ => Some f
  | Call_sdot_f2c f _ _ _ _ _ => Some f
  | _ => None
  end.

(** A step of such a run: an event that got its answer, or a foreign call
    that was entered and never returned (the routine ends the process, jumps
    out of the call or does not terminate). *)
Inductive Step : Type :=
| Returned (l : Logged)
| Entered (X : Type) (e : Event X).

Arguments Entered {X} e.

Section PartialRun.

Variable World : Type.
Variable env : Env World.

(** Whether the routine at an address, entered in a world, fails to return. *)
Variable no_return : Addr -> World -> bool.

(** The steps of a run, the world in which it ended (for a call that does
    not return: the world in which it was entered), and the result if the
    program got to return one. *)
Record Partial (R : Type) : Type := {
  steps : list Step;
  last_world : World;
  outcome : option R
}.

Arguments steps {R} p.
Arguments last_world {R} p.
Arguments outcome {R} p.

Definition stuck {X : Type} (e : Event X) (w : World) : bool :=
  match callee e with
  | Some f => no_return f w
  | None => false
  end.

Fixpoint exec_partial {R : Type} (p : Prog R) (w : World) : Partial R :=
  match p with
  | Ret r => {| steps := []; last_world := w; outcome := Some r |}
  | Vis e k =>
      if stuck e w
      then {| steps := [Entered e]; last_world := w; outcome := None |}
      else
        let '(x, w') := answer env e w in
        let o := exec_partial (k x) w' in
        {| steps := Returned (Log e x) :: steps o;
           last_world := last_world o;
           outcome := outcome o |}
  end.

End PartialRun.

Arguments steps {World R} p.
Arguments last_world {World R} p.
Arguments outcome {World R} p.
Arguments exec_partial {World} env no_return {R} p w.

(** ** The [lsame_] slot *)

(** Modelled from the spec: [push_fake_lsame] and [pop_fake_lsame] are
    defined outside [src/].  The spec has the helper symbol [lsame_]
    "temporarily redirected to a safe stand-in around the call", the
    "install/restore of a process-wide override": the symbol points either
    to a routine of a library or to the stand-in (the [fake_lsame] of the
    comment at line 48). *)
Inductive LsameTarget : Type :=
| library_lsame (a : Addr)
| fake_lsame.

(** Modelled from the spec: the process-wide override is the current target
    of [lsame_] together with the target that the last push saved. *)
Record LsameSlot : Type := {
  lsame_target : LsameTarget;
  lsame_saved : LsameTarget
}.

(** Modelled from the spec: the push saves the current target and installs
    the stand-in. *)
Definition push_lsame (s : LsameSlot) : LsameSlot :=
  {| lsame_target := fake_lsame; lsame_saved := lsame_target s |}.

(** Modelled from the spec: the pop puts the saved target back ("fully
    reverted afterward"). *)
Definition pop_lsame (s : LsameSlot) : LsameSlot :=
  {| lsame_target := lsame_saved s; lsame_saved := lsame_saved s |}.

(** A library for examples over a world that is the [lsame_] slot alone: its
    [isamax] returns a fixed index and leaves the slot alone. *)
Definition slot_library (exports : string -> option Addr) (isamax_ret : Z)
  : Env (LsameSlot * unit) := {|
  env_lookup_symbol := fun _ name => exports name;
  env_push_fake_lsame := fun w => (push_lsame (fst w), snd w);
  env_pop_fake_lsame := fun w => (pop_lsame (fst w), snd w);
  env_isamax := fun _ _ _ _ w => (isamax_ret, w);
  env_dpotrf := fun _ _ _ _ _ _ w => (0, w);
  env_sdot_plain := fun _ n A inca B incb w =>
    (0, untouched n A inca B incb, w);
  env_sdot_f2c := fun _ n A inca B incb w =>
    (0, untouched n A inca B incb, w)
|}.

(** A slot on which [lsame_] points into a library. *)
Definition slot_at_library : LsameSlot * unit :=
  ({| lsame_target := library_lsame 12288;
      lsame_saved := library_lsame 12288 |}, tt).

(** * Properties *)

(** ** Integers and floating-point literals *)

Lemma uint64_of_int64 (z : Z) : CInt.uint64_t (CInt.int64_t z) = CInt.uint64_t z.
Proof.
  unfold CInt.uint64_t, CInt.int64_t.
  rewrite Zminus_mod, Z.mod_mod by lia.
  rewrite <- Zminus_mod. f_equal. lia.
Qed.

Lemma int64_range (z : Z) : - 2 ^ 63 <= CInt.int64_t z < 2 ^ 63.
Proof.
  unfold CInt.int64_t.
  pose proof (Z.mod_pos_bound (z + 2 ^ 63) (2 ^ 64) ltac:(lia)). lia.
Qed.

(** A non-negative [int64_t] is its own 64-bit pattern. *)
Lemma int64_eqb_nonneg (z c : Z) :
  0 <= c < 2 ^ 63 ->
  (CInt.int64_t z =? c) = (CInt.uint64_t z =? c).
Proof.
  intros Hc. rewrite <- (uint64_of_int64 z).
  pose proof (int64_range z) as Hr.
  unfold CInt.uint64_t.
  destruct (Z.eqb_spec (CInt.int64_t z) c) as [E | E].
  - rewrite E, Z.mod_small by lia. symmetry. apply Z.eqb_refl.
  - symmetry. apply Z.eqb_neq. intros E'. apply E.
    destruct (Z_lt_le_dec (CInt.int64_t z) 0) as [Hneg | Hpos].
    + assert (Hm : (CInt.int64_t z) mod 2 ^ 64 = CInt.int64_t z + 2 ^ 64).
      { symmetry. apply (Z.mod_unique _ _ (-1)); lia. }
      lia.
    + rewrite Z.mod_small in E' by lia. exact E'.
Qed.

(** The length argument of the [isamax] probe: its pattern, its value as a
    64-bit integer, and the value of its low half as a 32-bit integer. *)
Lemma isamax_length_argument :
  let n := CInt.int64_t 0xffffffff00000003 in
  CInt.uint64_t n = 0xFFFFFFFF00000003 /\ n = -4294967293 /\ CInt.int32_t n = 3.
Proof. repeat split; reflexivity. Qed.

(** The literals denote the intended values. *)
Lemma literal_values :
  IEEE754.binary32 IEEE754.float_1_0 = IEEE754.Fin false (2 ^ 23) (-23) /\
  IEEE754.binary32 IEEE754.float_2_0 = IEEE754.Fin false (2 ^ 23) (-22) /\
  IEEE754.binary32 IEEE754.float_0_5 = IEEE754.Fin false (2 ^ 23) (-24) /\
  IEEE754.binary32 IEEE754.float_0_25 = IEEE754.Fin false (2 ^ 23) (-25) /\
  IEEE754.binary64 IEEE754.double_0_5 = IEEE754.Fin false (2 ^ 52) (-53) /\
  IEEE754.binary64 IEEE754.double_0_25 = IEEE754.Fin false (2 ^ 52) (-54).
Proof. repeat split; reflexivity. Qed.

(** [float A[1] = {.5}]: the double literal converts to the pattern used. *)
Lemma float_of_double_half :
  IEEE754.to_binary32 (IEEE754.binary64 IEEE754.double_0_5)
  = IEEE754.binary32 IEEE754.float_0_5.
Proof. reflexivity. Qed.

(** ** Runs of programs *)

Section RunFacts.

Variable World : Type.
Variable env : Env World.

Lemma exec_bind {A B : Type} (p : Prog A) (f : A -> Prog B) (w : World) :
  exec env (bind p f) w =
  let o := exec env p w in
  let o' := exec env (f (result o)) (world o) in
  {| trace := trace o ++ trace o'; world := world o'; result := result o' |}.
Proof.
  revert w. induction p as [a | X e k IH]; intros w; simpl.
  - destruct (exec env (f a) w); reflexivity.
  - destruct (answer env e w) as [x w'].
    rewrite IH. reflexivity.
Qed.

End RunFacts.

(** ** Comparison with [0.25] *)

Section Quarter.

Import IEEE754.

(** [Fin false (2 ^ 52) (-54)] is the value of the [double] literal [0.25].
    A value with a [k+1]-bit significand equals it only as
    [2^k * 2^(-2-k)]. *)
Lemma fin_eq_quarter (s : bool) (m e k : Z) :
  0 <= k -> 2 ^ k <= m < 2 ^ (k + 1) ->
  fp_eqb (Fin s m e) (Fin false (2 ^ 52) (-54)) = true ->
  s = false /\ m = 2 ^ k /\ e = -2 - k.
Proof.
  intros Hk Hm H. cbn [fp_eqb] in H.
  apply andb_prop in H. destruct H as [H1 H2]. apply Z.eqb_eq in H1.
  assert (Hpos : 0 < 2 ^ k) by (apply Z.pow_pos_nonneg; lia).
  destruct (Z_le_gt_dec e (-54)) as [Hle | Hgt].
  - rewrite Z.min_l in H1, H2 by lia.
    replace (e - e) with 0 in H1, H2 by lia.
    rewrite Z.pow_0_r, Z.mul_1_r in H1, H2.
    rewrite <- Z.pow_add_r in H1 by lia.
    assert (Hj : 52 + (-54 - e) = k).
    { rewrite H1 in Hm. destruct Hm as [Hlo Hhi].
      apply Z.pow_le_mono_r_iff in Hlo; [ | lia | lia].
      apply Z.pow_lt_mono_r_iff in Hhi; [ | lia | lia].
      lia. }
    rewrite Hj in H1.
    assert (Hm0 : (m =? 0) = false) by (apply Z.eqb_neq; lia).
    rewrite Hm0 in H2. cbn [orb] in H2.
    destruct s; [discriminate H2 | ].
    repeat split; [exact H1 | lia].
  - rewrite Z.min_r in H1, H2 by lia.
    replace (-54 - -54) with 0 in H1 by lia.
    rewrite Z.pow_0_r, Z.mul_1_r in H1.
    set (t := e - -54) in *.
    assert (Ht : 0 < 2 ^ t) by (apply Z.pow_pos_nonneg; lia).
    assert (Hlo : 2 ^ (k + t) <= 2 ^ 52).
    { rewrite Z.pow_add_r by lia. rewrite <- H1.
      apply Z.mul_le_mono_nonneg_r; lia. }
    assert (Hhi : 2 ^ 52 < 2 ^ (k + 1 + t)).
    { rewrite Z.pow_add_r by lia. rewrite <- H1.
      apply Z.mul_lt_mono_pos_r; lia. }
    apply Z.pow_le_mono_r_iff in Hlo; [ | lia | lia].
    apply Z.pow_lt_mono_r_iff in Hhi; [ | lia | lia].
    assert (Hkt : k + t = 52) by lia.
    assert (Hmk : m = 2 ^ k).
    { apply (Z.mul_cancel_r _ _ (2 ^ t)); [lia | ].
      rewrite H1, <- Z.pow_add_r, Hkt by lia. reflexivity. }
    assert (Hm0 : (m * 2 ^ t =? 0) = false) by (apply Z.eqb_neq; lia).
    rewrite Hm0 in H2. cbn [orb] in H2.
    destruct s; [discriminate H2 | ].
    repeat split; [exact Hmk | lia].
Qed.

(** A value below [2^(k+e)], itself at most [2^-2], is not [0.25]. *)
Lemma fin_below_quarter (s : bool) (m e k : Z) :
  0 <= k -> 0 <= m < 2 ^ k -> k + e <= -2 ->
  fp_eqb (Fin s m e) (Fin false (2 ^ 52) (-54)) = false.
Proof.
  intros Hk Hm He. cbn [fp_eqb].
  apply andb_false_intro1. apply Z.eqb_neq.
  destruct (Z_le_gt_dec e (-54)) as [Hle | Hgt].
  - rewrite Z.min_l by lia. replace (e - e) with 0 by lia.
    rewrite Z.pow_0_r, Z.mul_1_r, <- Z.pow_add_r by lia.
    assert (2 ^ k <= 2 ^ (52 + (-54 - e)))
      by (apply Z.pow_le_mono_r; lia).
    lia.
  - rewrite Z.min_r by lia. replace (-54 - -54) with 0 by lia.
    rewrite Z.pow_0_r, Z.mul_1_r.
    set (t := e - -54).
    assert (Ht : 0 < 2 ^ t) by (apply Z.pow_pos_nonneg; lia).
    assert (m * 2 ^ t < 2 ^ k * 2 ^ t)
      by (apply Z.mul_lt_mono_pos_r; lia).
    assert (2 ^ (k + t) <= 2 ^ 52) by (apply Z.pow_le_mono_r; lia).
    rewrite Z.pow_add_r in * by lia. lia.
Qed.

(** The fields of a pattern of [1 + ebits + mbits] bits. *)
Lemma decode_fields (ebits mbits b : Z) :
  0 < ebits -> 0 < mbits -> 0 <= b < 2 ^ (1 + ebits + mbits) ->
  let ex := Z.land (Z.shiftr b mbits) (2 ^ ebits - 1) in
  let frac := Z.land b (2 ^ mbits - 1) in
  0 <= ex < 2 ^ ebits /\ 0 <= frac < 2 ^ mbits /\
  b = frac + 2 ^ mbits * ex
      + 2 ^ (ebits + mbits) * Z.b2z (Z.testbit b (ebits + mbits)).
Proof.
  intros He Hm Hb ex frac. subst ex frac.
  rewrite Z.shiftr_div_pow2 by lia.
  change (2 ^ ebits - 1) with (Z.pred (2 ^ ebits)).
  change (2 ^ mbits - 1) with (Z.pred (2 ^ mbits)).
  rewrite <- !Z.ones_equiv, !Z.land_ones by lia.
  rewrite (Z.testbit_spec' b (ebits + mbits)) by lia.
  assert (Hpm : 0 < 2 ^ mbits) by (apply Z.pow_pos_nonneg; lia).
  assert (Hpe : 0 < 2 ^ ebits) by (apply Z.pow_pos_nonneg; lia).
  split; [apply Z.mod_pos_bound; lia | ].
  split; [apply Z.mod_pos_bound; lia | ].
  assert (Hhigh : b / 2 ^ (ebits + mbits) < 2).
  { apply Z.div_lt_upper_bound; [apply Z.pow_pos_nonneg; lia | ].
    replace (1 + ebits + mbits) with (1 + (ebits + mbits)) in Hb by lia.
    rewrite Z.pow_add_r in Hb by lia. change (2 ^ 1) with 2 in Hb. lia. }
  assert (Hhigh0 : 0 <= b / 2 ^ (ebits + mbits))
    by (apply Z.div_pos; [lia | apply Z.pow_pos_nonneg; lia]).
  rewrite (Z.mod_small (b / 2 ^ (ebits + mbits)) 2) by lia.
  rewrite (Z.add_comm ebits mbits), Z.pow_add_r by lia.
  rewrite <- Z.div_div by lia.
  pose proof (Z.div_mod b (2 ^ mbits) ltac:(lia)) as D1.
  pose proof (Z.div_mod (b / 2 ^ mbits) (2 ^ ebits) ltac:(lia)) as D2.
  set (q := b / 2 ^ mbits) in *.
  set (h := q / 2 ^ ebits) in *.
  rewrite D1 at 1. rewrite D2 at 1. ring.
Qed.

(** The only [float] pattern that compares equal to [0.25]. *)
Lemma binary32_eq_quarter (r : Z) :
  fp_eqb (binary32 r) (binary64 double_0_25) = true <->
  r mod 2 ^ 32 = float_0_25.
Proof.
  change (binary64 double_0_25) with (Fin false (2 ^ 52) (-54)).
  unfold binary32, decode. change (2 ^ (1 + 8 + 23)) with (2 ^ 32).
  split.
  - set (b := r mod 2 ^ 32).
    assert (Hb : 0 <= b < 2 ^ (1 + 8 + 23))
      by (apply Z.mod_pos_bound; reflexivity).
    destruct (decode_fields 8 23 b ltac:(lia) ltac:(lia) Hb)
      as (Hex & Hfrac & Hdec).
    clearbody b.
    set (s := Z.testbit b (8 + 23)) in *.
    set (ex := Z.land (Z.shiftr b 23) (2 ^ 8 - 1)) in *.
    set (frac := Z.land b (2 ^ 23 - 1)) in *.
    clearbody s ex frac. subst b.
    destruct (Z.eqb_spec ex (2 ^ 8 - 1)) as [Emax | _].
    { destruct (frac =? 0); cbn [fp_eqb]; discriminate. }
    destruct (Z.eqb_spec ex 0) as [E0 | N0]; intros H.
    + rewrite (fin_below_quarter s frac _ 23) in H; [discriminate | lia | lia | ].
      vm_compute. discriminate.
    + apply (fin_eq_quarter s _ _ 23) in H; [ | lia | ].
      * destruct H as (Hs & Hm & He). subst s.
        assert (Hf : frac = 0) by lia.
        assert (He' : ex = 125).
        { change (2 ^ (8 - 1) - 1) with 127 in He. lia. }
        subst frac ex. reflexivity.
      * change (2 ^ (23 + 1)) with (2 * 2 ^ 23). lia.
  - intros H. rewrite H. reflexivity.
Qed.

(** The only [double] pattern that compares equal to [0.25]. *)
Lemma binary64_eq_quarter (r : Z) :
  fp_eqb (binary64 r) (binary64 double_0_25) = true <->
  r mod 2 ^ 64 = double_0_25.
Proof.
  change (binary64 double_0_25) with (Fin false (2 ^ 52) (-54)).
  unfold binary64, decode. change (2 ^ (1 + 11 + 52)) with (2 ^ 64).
  split.
  - set (b := r mod 2 ^ 64).
    assert (Hb : 0 <= b < 2 ^ (1 + 11 + 52))
      by (apply Z.mod_pos_bound; reflexivity).
    destruct (decode_fields 11 52 b ltac:(lia) ltac:(lia) Hb)
      as (Hex & Hfrac & Hdec).
    clearbody b.
    set (s := Z.testbit b (11 + 52)) in *.
    set (ex := Z.land (Z.shiftr b 52) (2 ^ 11 - 1)) in *.
    set (frac := Z.land b (2 ^ 52 - 1)) in *.
    clearbody s ex frac. subst b.
    destruct (Z.eqb_spec ex (2 ^ 11 - 1)) as [Emax | _].
    { destruct (frac =? 0); cbn [fp_eqb]; discriminate. }
    destruct (Z.eqb_spec ex 0) as [E0 | N0]; intros H.
    + rewrite (fin_below_quarter s frac _ 52) in H; [discriminate | lia | lia | ].
      vm_compute. discriminate.
    + apply (fin_eq_quarter s _ _ 52) in H; [ | lia | ].
      * destruct H as (Hs & Hm & He). subst s.
        assert (Hf : frac = 0) by lia.
        assert (He' : ex = 1021).
        { change (2 ^ (11 - 1) - 1) with 1023 in He. lia. }
        subst frac ex. reflexivity.
      * change (2 ^ (52 + 1)) with (2 * 2 ^ 52). lia.
  - intros H. rewrite H. reflexivity.
Qed.

(** A [double] that is exactly [0.25] still compares equal to [0.25] after
    its conversion to [float]. *)
Lemma to_binary32_keeps_quarter (r : Z) :
  fp_eqb (binary64 r) (binary64 double_0_25) = true ->
  fp_eqb (to_binary32 (binary64 r)) (binary64 double_0_25) = true.
Proof.
  intros H. apply binary64_eq_quarter in H.
  unfold binary64, decode in *. change (2 ^ (1 + 11 + 52)) with (2 ^ 64).
  rewrite H. reflexivity.
Qed.

End Quarter.

(** ** The interface-width probes *)

(** C1: the BLAS sub-test enters the probed [isamax] exactly once, with a
    length whose 64-bit pattern is [0xFFFFFFFF00000003], the array
    [{1.0f, 2.0f, 1.0f}] and stride 1; the returned index [0] gives ILP64,
    [2] gives LP64 and every other index gives UNKNOWN. *)
Theorem autodetect_blas_interface_probe :
  forall (World : Type) (env : Env World) (deepbindless : bool)
         (LP64 ILP64 UNKNOWN : Z) (isamax_addr : Addr) (w : World),
    let o := exec env (autodetect_blas_interface deepbindless LP64 ILP64
                         UNKNOWN isamax_addr) w in
    let X := [IEEE754.float_1_0; IEEE754.float_2_0; IEEE754.float_1_0] in
    exists n r : Z,
      CInt.uint64_t n = 0xFFFFFFFF00000003 /\
      map IEEE754.binary32 X =
        [IEEE754.Fin false (2 ^ 23) (-23); IEEE754.Fin false (2 ^ 23) (-22);
         IEEE754.Fin false (2 ^ 23) (-23)] /\
      filter is_foreign_call (trace o) = [Log (Call_isamax isamax_addr n X 1) r] /\
      result o = (if CInt.int64_t r =? 0 then ILP64
                  else if CInt.int64_t r =? 2 then LP64
                  else UNKNOWN).
Proof.
  intros World env deepbindless LP64 ILP64 UNKNOWN isamax_addr w o X.
  exists (CInt.int64_t 0xffffffff00000003).
  subst o. unfold autodetect_blas_interface, isamax.
  destruct deepbindless;
    cbn [ifdef push_fake_lsame pop_fake_lsame trigger bind exec answer];
    match goal with
    | |- context [env_isamax ?e ?a ?n ?x ?i ?w0] =>
        destruct (env_isamax e a n x i w0) as [r w1]
    end;
    exists r;
    (destruct (CInt.int64_t r =? 0); [ | destruct (CInt.int64_t r =? 2)]);
    cbn [exec trace result world filter is_foreign_call];
    repeat split; reflexivity.
Qed.

(** C2: the LAPACK sub-test enters the probed [dpotrf] exactly once with
    [uplo = 'U'], order 2, a 2x2 matrix, [lda = 0] and [info = 0]; the
    pattern left in [info] gives ILP64 when it is [0xFFFFFFFFFFFFFFFC]
    (the 64-bit [-4]), LP64 when it is [0x00000000FFFFFFFC] (the 32-bit [-4]
    in the low half) and UNKNOWN otherwise. *)
Theorem autodetect_lapack_interface_probe :
  forall (World : Type) (env : Env World) (LP64 ILP64 UNKNOWN : Z)
         (dpotrf_addr : Addr) (w : World),
    let o := exec env (autodetect_lapack_interface LP64 ILP64 UNKNOWN
                         dpotrf_addr) w in
    exists (testmat : list (option Z)) (r : Z),
      List.length testmat = 4%nat /\
      trace o = [Log (Call_dpotrf dpotrf_addr "U"%char 2 testmat 0 0) r] /\
      result o = (if CInt.uint64_t r =? 0xFFFFFFFFFFFFFFFC then ILP64
                  else if CInt.uint64_t r =? 0x00000000FFFFFFFC then LP64
                  else UNKNOWN) /\
      CInt.uint64_t (-4) = 0xFFFFFFFFFFFFFFFC /\
      CInt.int32_t 0x00000000FFFFFFFC = -4.
Proof.
  intros World env LP64 ILP64 UNKNOWN dpotrf_addr w o.
  subst o. unfold autodetect_lapack_interface, dpotrf.
  cbn [trigger bind exec answer].
  match goal with
  | |- context [env_dpotrf ?e ?a ?u ?m ?t ?l ?i ?w0] =>
      exists t; destruct (env_dpotrf e a u m t l i w0) as [r w1]
  end.
  exists r.
  rewrite uint64_of_int64, (int64_eqb_nonneg r 0xfffffffc) by lia.
  (destruct (CInt.uint64_t r =? 0xfffffffffffffffc);
     [ | destruct (CInt.uint64_t r =? 0xfffffffc)]);
    cbn [exec trace result world]; repeat split; reflexivity.
Qed.

(** C3: [autodetect_interface] first queries ["isamax_" ++ suffix] and, when
    it resolves, is the BLAS sub-test on that address; only otherwise does
    it query ["dpotrf_" ++ suffix] and, when that resolves, is the LAPACK
    sub-test; when neither resolves it returns UNKNOWN after the two queries
    and nothing else. *)
Theorem autodetect_interface_strategy :
  forall (World : Type) (env : Env World) (deepbindless : bool)
         (LP64 ILP64 UNKNOWN : Z) (handle : Handle) (suffix : string)
         (w : World),
    let isamax_name := ("isamax_" ++ suffix)%string in
    let dpotrf_name := ("dpotrf_" ++ suffix)%string in
    exec env (autodetect_interface deepbindless LP64 ILP64 UNKNOWN handle
                suffix) w =
    match env_lookup_symbol env handle isamax_name with
    | Some a =>
        let o := exec env (autodetect_blas_interface deepbindless LP64 ILP64
                             UNKNOWN a) w in
        {| trace := Log (Lookup_symbol handle isamax_name) (Some a) :: trace o;
           world := world o; result := result o |}
    | None =>
        match env_lookup_symbol env handle dpotrf_name with
        | Some d =>
            let o := exec env (autodetect_lapack_interface LP64 ILP64 UNKNOWN
                                 d) w in
            {| trace := Log (Lookup_symbol handle isamax_name) None
                        :: Log (Lookup_symbol handle dpotrf_name) (Some d)
                        :: trace o;
               world := world o; result := result o |}
        | None =>
            {| trace := [Log (Lookup_symbol handle isamax_name) None;
                         Log (Lookup_symbol handle dpotrf_name) None];
               world := w; result := UNKNOWN |}
        end
    end.
Proof.
  intros World env deepbindless LP64 ILP64 UNKNOWN handle suffix w.
  unfold autodetect_interface, lookup_symbol, sprintf.
  cbn [trigger bind exec answer].
  destruct (env_lookup_symbol env handle ("isamax_" ++ suffix)) as [a | ].
  - reflexivity.
  - cbn [trigger bind exec answer].
    destruct (env_lookup_symbol env handle ("dpotrf_" ++ suffix)) as [d | ];
      reflexivity.
Qed.

(** ** The suffix search *)

Section ListSearch.

Context {A : Type} (p : A -> bool).

Lemma find_append (l1 l2 : list A) :
  find p (l1 ++ l2) =
  match find p l1 with Some x => Some x | None => find p l2 end.
Proof.
  induction l1 as [ | x l1 IH]; simpl; [reflexivity | ].
  destruct (p x); [reflexivity | exact IH].
Qed.

Lemma upto_first_append (l1 l2 : list A) :
  upto_first p (l1 ++ l2) =
  match find p l1 with
  | Some _ => upto_first p l1
  | None => l1 ++ upto_first p l2
  end.
Proof.
  induction l1 as [ | x l1 IH]; simpl; [reflexivity | ].
  destruct (p x); [reflexivity | ].
  rewrite IH. destruct (find p l1); reflexivity.
Qed.

Lemma upto_first_all (l : list A) :
  find p l = None -> upto_first p l = l.
Proof.
  induction l as [ | x l IH]; simpl; [reflexivity | ].
  destruct (p x); [discriminate | ].
  intros H. rewrite (IH H). reflexivity.
Qed.

Lemma find_none_iff (l : list A) :
  find p l = None <-> forall x, In x l -> p x = false.
Proof.
  split.
  - intros H x Hx. exact (find_none p l H x Hx).
  - intros H. destruct (find p l) as [x | ] eqn:E; [ | reflexivity].
    apply find_some in E. destruct E as [Hx Hp].
    rewrite (H x Hx) in Hp. discriminate.
Qed.

Lemma find_agree (q : A -> bool) (l : list A) :
  (forall x, In x l -> p x = q x) -> find p l = find q l.
Proof.
  induction l as [ | x l IH]; intros H; simpl; [reflexivity | ].
  rewrite (H x (or_introl eq_refl)).
  destruct (q x); [reflexivity | ].
  apply IH. intros y Hy. apply H. right. exact Hy.
Qed.

End ListSearch.

Section SuffixSearch.

Variable World : Type.
Variable env : Env World.
Variable handle : Handle.

Lemma suffix_loop_exec (symbol : string) (sufs : list string) (w : World) :
  let cs := map (fun suffix => (symbol, suffix)) sufs in
  exec env (suffix_loop handle symbol sufs) w =
  {| trace := map (query env handle) (upto_first (resolves env handle) cs);
     world := w;
     result := option_map snd (find (resolves env handle) cs) |}.
Proof.
  induction sufs as [ | suffix sufs IH]; [reflexivity | ].
  cbn [suffix_loop lookup_symbol trigger bind exec answer map find
       upto_first].
  unfold sprintf.
  assert (Hres : resolves env handle (symbol, suffix) =
                 match env_lookup_symbol env handle (symbol ++ suffix) with
                 | Some _ => true
                 | None => false
                 end) by reflexivity.
  assert (Hq : query env handle (symbol, suffix) =
               Log (Lookup_symbol handle (symbol ++ suffix))
                   (env_lookup_symbol env handle (symbol ++ suffix)))
    by reflexivity.
  rewrite Hres.
  destruct (env_lookup_symbol env handle (symbol ++ suffix)) as [a | ];
    cbn [map option_map snd]; rewrite Hq.
  - reflexivity.
  - cbv zeta in IH. rewrite IH. reflexivity.
Qed.

Lemma symbol_loop_exec (symbols : list string) (w : World) :
  let cs := flat_map (fun stem => map (fun suffix => (stem, suffix)) suffixes)
                     symbols in
  exec env (symbol_loop handle symbols) w =
  {| trace := map (query env handle) (upto_first (resolves env handle) cs);
     world := w;
     result := option_map snd (find (resolves env handle) cs) |}.
Proof.
  induction symbols as [ | symbol symbols IH]; [reflexivity | ].
  cbv zeta in IH |- *.
  cbn [symbol_loop flat_map].
  rewrite exec_bind, suffix_loop_exec. cbv zeta. cbn [trace world result].
  rewrite find_append, upto_first_append.
  destruct (find (resolves env handle)
              (map (fun suffix => (symbol, suffix)) suffixes))
    as [c | ] eqn:E.
  - cbn [option_map exec trace world result]. rewrite app_nil_r. reflexivity.
  - cbn [option_map]. rewrite IH. cbn [trace world result].
    rewrite (upto_first_all _ _ E), map_app. reflexivity.
Qed.

Lemma autodetect_symbol_suffix_exec (w : World) :
  exec env (autodetect_symbol_suffix handle) w =
  {| trace := map (query env handle)
                  (upto_first (resolves env handle) candidate_order);
     world := w;
     result := option_map snd (find (resolves env handle) candidate_order) |}.
Proof. exact (symbol_loop_exec symbol_names w). Qed.

End SuffixSearch.

(** C4: [autodetect_symbol_suffix] queries the names stem by stem
    ([isamax_], then [dpotrf_]) and, within a stem, suffix by suffix in the
    order ["", "_", "__", "64_", "_64__", "__64___"], stops at the first name
    that resolves and returns its suffix; it returns NULL exactly when none of
    the twelve names resolves. *)
Theorem autodetect_symbol_suffix_first_resolved :
  forall (World : Type) (env : Env World) (handle : Handle) (w : World),
    let o := exec env (autodetect_symbol_suffix handle) w in
    map candidate_name candidate_order =
      ["isamax_"; "isamax__"; "isamax___"; "isamax_64_"; "isamax__64__";
       "isamax___64___";
       "dpotrf_"; "dpotrf__"; "dpotrf___"; "dpotrf_64_"; "dpotrf__64__";
       "dpotrf___64___"]%string /\
    trace o = map (query env handle)
                  (upto_first (resolves env handle) candidate_order) /\
    world o = w /\
    result o = option_map snd (find (resolves env handle) candidate_order) /\
    (result o = None <->
     forall c, In c candidate_order ->
               env_lookup_symbol env handle (candidate_name c) = None).
Proof.
  intros World env handle w o. subst o.
  rewrite autodetect_symbol_suffix_exec. cbn [trace world result].
  repeat split; try reflexivity.
  - intros H c Hc.
    destruct (find (resolves env handle) candidate_order) eqn:E;
      [discriminate | ].
    pose proof (proj1 (find_none_iff _ _) E c Hc) as Hr.
    unfold resolves in Hr.
    destruct (env_lookup_symbol env handle (candidate_name c));
      [discriminate | reflexivity].
  - intros H.
    assert (E : find (resolves env handle) candidate_order = None).
    { apply find_none_iff. intros c Hc. unfold resolves.
      rewrite (H c Hc). reflexivity. }
    rewrite E. reflexivity.
Qed.

(** C5: when, among the probed names, the loader resolves exactly
    ["isamax_" ++ s] for a candidate suffix [s], the search returns [s]. *)
Theorem autodetect_symbol_suffix_single_export :
  forall (World : Type) (env : Env World) (handle : Handle) (w : World)
         (s : string),
    In s suffixes ->
    (forall c, In c candidate_order ->
               (resolves env handle c = true <->
                candidate_name c = ("isamax_" ++ s)%string)) ->
    result (exec env (autodetect_symbol_suffix handle) w) = Some s.
Proof.
  intros World env handle w s Hs Hexact.
  rewrite autodetect_symbol_suffix_exec. cbn [result].
  rewrite (find_agree _ (fun c => String.eqb (candidate_name c)
                                              ("isamax_" ++ s))).
  - cbn [suffixes In] in Hs.
    repeat (destruct Hs as [Hs | Hs]; [subst s; reflexivity | ]).
    contradiction.
  - intros c Hc. specialize (Hexact c Hc).
    destruct (String.eqb_spec (candidate_name c) ("isamax_" ++ s)) as [E | E].
    + apply Hexact. exact E.
    + destruct (resolves env handle c); [ | reflexivity].
      exfalso. apply E. apply Hexact. reflexivity.
Qed.

Lemma autodetect_symbol_suffix_single_export_witness :
  result (exec only_isamax_64 (autodetect_symbol_suffix 0) tt)
  = Some "_64__"%string.
Proof.
  apply (autodetect_symbol_suffix_single_export unit only_isamax_64 0 tt
           "_64__"%string).
  - simpl. tauto.
  - intros c Hc. unfold resolves, only_isamax_64, fake_library, exports_only.
    cbn [env_lookup_symbol].
    destruct (String.eqb_spec (candidate_name c) "isamax__64__") as [E | E].
    + split; intros _; [exact E | reflexivity].
    + split; intros H; [discriminate | contradiction].
Defined.

(** ** The calling-convention probe *)

Section F2C.

Variable World : Type.
Variable env : Env World.
Variables PLAIN REQUIRED UNKNOWN : Z.
Variable handle : Handle.
Variable suffix : string.

(** A run of [autodetect_f2c] whose [sdot_] symbol resolves: the second
    call is entered with the locals as the first call left them. *)
Lemma autodetect_f2c_exec (sdot_addr : Addr) (w : World) :
  env_lookup_symbol env handle ("sdot_" ++ suffix) = Some sdot_addr ->
  let half := [IEEE754.float_0_5] in
  let quarter := IEEE754.binary64 IEEE754.double_0_25 in
  let c1 := env_sdot_plain env sdot_addr 1 half 1 half 1 w in
  let l1 := snd (fst c1) in
  let c2 := env_sdot_f2c env sdot_addr (loc_n l1) (loc_A l1) (loc_inca l1)
                         (loc_B l1) (loc_incb l1) (snd c1) in
  exec env (autodetect_f2c PLAIN REQUIRED UNKNOWN handle suffix) w =
  {| trace := [Log (Lookup_symbol handle ("sdot_" ++ suffix)) (Some sdot_addr);
               Log (Call_sdot_plain sdot_addr 1 half 1 half 1) (fst c1);
               Log (Call_sdot_f2c sdot_addr (loc_n l1) (loc_A l1)
                      (loc_inca l1) (loc_B l1) (loc_incb l1)) (fst c2)];
     world := snd c2;
     result :=
       if IEEE754.fp_eqb (IEEE754.binary32 (fst (fst c1))) quarter then PLAIN
       else if IEEE754.fp_eqb
                 (IEEE754.to_binary32 (IEEE754.binary64 (fst (fst c2))))
                 quarter
            then REQUIRED
            else UNKNOWN |}.
Proof.
  intros Hsym half quarter c1 l1 c2. subst c2 l1 c1.
  unfold autodetect_f2c, lookup_symbol, sdot_plain, sdot_f2c, sprintf.
  cbn [trigger bind exec answer]. rewrite Hsym.
  cbn [trigger bind exec answer]. fold half.
  destruct (env_sdot_plain env sdot_addr 1 half 1 half 1 w)
    as [[r1 l1] w1].
  cbn [fst snd].
  destruct (env_sdot_f2c env sdot_addr (loc_n l1) (loc_A l1) (loc_inca l1)
              (loc_B l1) (loc_incb l1) w1) as [[r2 l2] w2].
  cbn [fst snd]. fold quarter.
  (destruct (IEEE754.fp_eqb (IEEE754.binary32 r1) quarter);
   [ | destruct (IEEE754.fp_eqb
                   (IEEE754.to_binary32 (IEEE754.binary64 r2)) quarter)]);
    reflexivity.
Qed.

End F2C.

(** The classification of the code is the specified one except when the
    wide reading differs from [0.25] and still converts to [0.25f]. *)
Lemma f2c_as_specified_or_rounded (PLAIN REQUIRED UNKNOWN r1 r2 : Z) :
  let quarter := IEEE754.binary64 IEEE754.double_0_25 in
  let narrow := IEEE754.binary32 r1 in
  let wide := IEEE754.binary64 r2 in
  (if IEEE754.fp_eqb narrow quarter then PLAIN
   else if IEEE754.fp_eqb (IEEE754.to_binary32 wide) quarter then REQUIRED
        else UNKNOWN)
  = f2c_as_specified PLAIN REQUIRED UNKNOWN narrow wide \/
  (IEEE754.fp_eqb narrow quarter = false /\
   IEEE754.fp_eqb wide quarter = false /\
   IEEE754.fp_eqb (IEEE754.to_binary32 wide) quarter = true).
Proof.
  intros quarter narrow wide. unfold f2c_as_specified. fold quarter.
  destruct (IEEE754.fp_eqb narrow quarter); [left; reflexivity | ].
  destruct (IEEE754.fp_eqb wide quarter) eqn:Hw.
  - left. subst wide quarter.
    rewrite (to_binary32_keeps_quarter r2 Hw). reflexivity.
  - destruct (IEEE754.fp_eqb (IEEE754.to_binary32 wide) quarter);
      [right; repeat split | left]; reflexivity.
Qed.

(** C6, as the code has it: [autodetect_f2c] resolves ["sdot_" ++ suffix]
    and enters it twice, once as a function returning [float] and once as a
    function returning [double].  The first call is given [n = 1], the
    vectors [{0.5}] and [{0.5}] and strides 1; the second call is given the
    addresses of the same five locals, hence their contents as the first
    call left them (the same values when the routine only reads them).  The
    [double] is converted to [float].  The result is PLAIN when the [float]
    equals [0.25], otherwise REQUIRED when the converted [double] equals
    [0.25], otherwise UNKNOWN. *)
Theorem autodetect_f2c_classifies :
  forall (World : Type) (env : Env World) (PLAIN REQUIRED UNKNOWN : Z)
         (handle : Handle) (suffix : string) (sdot_addr : Addr) (w : World),
    env_lookup_symbol env handle ("sdot_" ++ suffix) = Some sdot_addr ->
    let o := exec env (autodetect_f2c PLAIN REQUIRED UNKNOWN handle suffix) w in
    let half := [IEEE754.float_0_5] in
    let quarter := IEEE754.binary64 IEEE754.double_0_25 in
    exists (r1 : Z) (l1 : SdotLocals) (r2 : Z) (l2 : SdotLocals),
      IEEE754.binary32 IEEE754.float_0_5 = IEEE754.Fin false (2 ^ 23) (-24) /\
      trace o =
        [Log (Lookup_symbol handle ("sdot_" ++ suffix)) (Some sdot_addr);
         Log (Call_sdot_plain sdot_addr 1 half 1 half 1) (r1, l1);
         Log (Call_sdot_f2c sdot_addr (loc_n l1) (loc_A l1) (loc_inca l1)
                (loc_B l1) (loc_incb l1)) (r2, l2)] /\
      (l1 = untouched 1 half 1 half 1 ->
       trace o =
         [Log (Lookup_symbol handle ("sdot_" ++ suffix)) (Some sdot_addr);
          Log (Call_sdot_plain sdot_addr 1 half 1 half 1) (r1, l1);
          Log (Call_sdot_f2c sdot_addr 1 half 1 half 1) (r2, l2)]) /\
      result o =
        (if IEEE754.fp_eqb (IEEE754.binary32 r1) quarter then PLAIN
         else if IEEE754.fp_eqb
                   (IEEE754.to_binary32 (IEEE754.binary64 r2)) quarter
              then REQUIRED
              else UNKNOWN).
Proof.
  intros World env PLAIN REQUIRED UNKNOWN handle suffix sdot_addr w Hsym
         o half quarter.
  subst o.
  rewrite (autodetect_f2c_exec World env PLAIN REQUIRED UNKNOWN handle suffix
             sdot_addr w Hsym).
  cbv zeta. cbn [trace result]. fold half.
  destruct (env_sdot_plain env sdot_addr 1 half 1 half 1 w)
    as [[r1 l1] w1].
  cbn [fst snd].
  destruct (env_sdot_f2c env sdot_addr (loc_n l1) (loc_A l1) (loc_inca l1)
              (loc_B l1) (loc_incb l1) w1) as [[r2 l2] w2].
  cbn [fst snd].
  exists r1, l1, r2, l2.
  split; [reflexivity | ]. split; [reflexivity | ].
  split; [ | reflexivity].
  intros Hl. rewrite Hl. reflexivity.
Qed.

Lemma autodetect_f2c_classifies_witness :
  exists (r1 : Z) (l1 : SdotLocals) (r2 : Z) (l2 : SdotLocals),
    IEEE754.binary32 IEEE754.float_0_5 = IEEE754.Fin false (2 ^ 23) (-24) /\
    trace (exec sdot_quarter_both (autodetect_f2c 0 1 (-1) 0 "") tt) =
      [Log (Lookup_symbol 0 "sdot_") (Some 4096);
       Log (Call_sdot_plain 4096 1 [IEEE754.float_0_5] 1
              [IEEE754.float_0_5] 1) (r1, l1);
       Log (Call_sdot_f2c 4096 (loc_n l1) (loc_A l1) (loc_inca l1)
              (loc_B l1) (loc_incb l1)) (r2, l2)] /\
    (l1 = untouched 1 [IEEE754.float_0_5] 1 [IEEE754.float_0_5] 1 ->
     trace (exec sdot_quarter_both (autodetect_f2c 0 1 (-1) 0 "") tt) =
       [Log (Lookup_symbol 0 "sdot_") (Some 4096);
        Log (Call_sdot_plain 4096 1 [IEEE754.float_0_5] 1
               [IEEE754.float_0_5] 1) (r1, l1);
        Log (Call_sdot_f2c 4096 1 [IEEE754.float_0_5] 1
               [IEEE754.float_0_5] 1) (r2, l2)]) /\
    result (exec sdot_quarter_both (autodetect_f2c 0 1 (-1) 0 "") tt) =
      (if IEEE754.fp_eqb (IEEE754.binary32 r1)
            (IEEE754.binary64 IEEE754.double_0_25) then 0
       else if IEEE754.fp_eqb
                 (IEEE754.to_binary32 (IEEE754.binary64 r2))
                 (IEEE754.binary64 IEEE754.double_0_25)
            then 1
            else -1).
Proof.
  apply (autodetect_f2c_classifies unit sdot_quarter_both 0 1 (-1) 0 "" 4096
           tt).
  reflexivity.
Defined.

(** C6, as stated, fails: with the result codes 0, 1 and -1 and an [sdot_]
    that only reads its arguments and whose return register holds the
    double next above [0.25], neither the narrow nor the wide reading
    equals [0.25], yet the result is REQUIRED (1) and not UNKNOWN (-1),
    because the wide reading is converted to [float] before it is
    compared. *)
Lemma autodetect_f2c_not_as_specified :
  let o := exec sdot_above_quarter (autodetect_f2c 0 1 (-1) 0 "") tt in
  let quarter := IEEE754.binary64 IEEE754.double_0_25 in
  let narrow := IEEE754.binary32 (sdot_register mod 2 ^ 32) in
  let wide := IEEE754.binary64 sdot_register in
  let half := [IEEE754.float_0_5] in
  trace o =
    [Log (Lookup_symbol 0 "sdot_") (Some 4096);
     Log (Call_sdot_plain 4096 1 half 1 half 1)
         (sdot_register mod 2 ^ 32, untouched 1 half 1 half 1);
     Log (Call_sdot_f2c 4096 1 half 1 half 1)
         (sdot_register, untouched 1 half 1 half 1)] /\
  IEEE754.fp_eqb narrow quarter = false /\
  IEEE754.fp_eqb wide quarter = false /\
  f2c_as_specified 0 1 (-1) narrow wide = -1 /\
  result o = 1 /\
  result o <> f2c_as_specified 0 1 (-1) narrow wide.
Proof.
  cbv zeta. repeat split; try reflexivity.
  vm_compute. discriminate.
Qed.

(** C9: when ["sdot_" ++ suffix] does not resolve, [autodetect_f2c] returns
    the integer 0 right after the failed query, entering no foreign
    routine. *)
Theorem autodetect_f2c_unresolved :
  forall (World : Type) (env : Env World) (PLAIN REQUIRED UNKNOWN : Z)
         (handle : Handle) (suffix : string) (w : World),
    env_lookup_symbol env handle ("sdot_" ++ suffix) = None ->
    exec env (autodetect_f2c PLAIN REQUIRED UNKNOWN handle suffix) w =
    {| trace := [Log (Lookup_symbol handle ("sdot_" ++ suffix)) None];
       world := w;
       result := 0 |}.
Proof.
  intros World env PLAIN REQUIRED UNKNOWN handle suffix w Hsym.
  unfold autodetect_f2c, lookup_symbol, sprintf.
  cbn [trigger bind exec answer]. rewrite Hsym. reflexivity.
Qed.

Lemma autodetect_f2c_unresolved_witness :
  exec no_exports (autodetect_f2c 7 8 9 0 "_") tt =
  {| trace := [Log (Lookup_symbol 0 "sdot__") None];
     world := tt;
     result := 0 |}.
Proof.
  apply (autodetect_f2c_unresolved unit no_exports 7 8 9 0 "_" tt).
  reflexivity.
Defined.

(** C10: the narrow reading is tested first: when the [float] returned by
    the first call and the converted [double] returned by the second call
    both compare equal to [0.25], the result is PLAIN. *)
Theorem autodetect_f2c_plain_precedence :
  forall (World : Type) (env : Env World) (PLAIN REQUIRED UNKNOWN : Z)
         (handle : Handle) (suffix : string) (sdot_addr : Addr) (w : World)
         (r1 r2 : Z) (l1 l2 : SdotLocals) (w1 w2 : World),
    let half := [IEEE754.float_0_5] in
    let quarter := IEEE754.binary64 IEEE754.double_0_25 in
    env_lookup_symbol env handle ("sdot_" ++ suffix) = Some sdot_addr ->
    env_sdot_plain env sdot_addr 1 half 1 half 1 w = (r1, l1, w1) ->
    env_sdot_f2c env sdot_addr (loc_n l1) (loc_A l1) (loc_inca l1) (loc_B l1)
                 (loc_incb l1) w1 = (r2, l2, w2) ->
    IEEE754.fp_eqb (IEEE754.binary32 r1) quarter = true ->
    IEEE754.fp_eqb (IEEE754.to_binary32 (IEEE754.binary64 r2)) quarter
      = true ->
    result (exec env (autodetect_f2c PLAIN REQUIRED UNKNOWN handle suffix) w)
    = PLAIN.
Proof.
  intros World env PLAIN REQUIRED UNKNOWN handle suffix sdot_addr w r1 r2
         l1 l2 w1 w2 half quarter Hsym H1 H2 Hnarrow Hwide.
  rewrite (autodetect_f2c_exec World env PLAIN REQUIRED UNKNOWN handle suffix
             sdot_addr w Hsym).
  cbv zeta. cbn [result]. fold half. rewrite H1. cbn [fst].
  fold quarter. rewrite Hnarrow. reflexivity.
Qed.

Lemma autodetect_f2c_plain_precedence_witness :
  result (exec sdot_quarter_both (autodetect_f2c 0 1 (-1) 0 "") tt) = 0.
Proof.
  apply (autodetect_f2c_plain_precedence unit sdot_quarter_both 0 1 (-1) 0 ""
           4096 tt IEEE754.float_0_25 IEEE754.double_0_25
           (untouched 1 [IEEE754.float_0_5] 1 [IEEE754.float_0_5] 1)
           (untouched 1 [IEEE754.float_0_5] 1 [IEEE754.float_0_5] 1) tt tt);
    reflexivity.
Defined.

(** ** The scope of the [lsame_] substitution *)

Section LsameScope.

Variable World : Type.
Variable env : Env World.

Lemma lsame_scoped_queries (handle : Handle) (cs : list (string * string)) :
  lsame_scoped (map (query env handle) cs) = true.
Proof.
  induction cs as [ | c cs IH]; [reflexivity | exact IH].
Qed.

Lemma autodetect_blas_interface_deepbindless_exec
  (LP64 ILP64 UNKNOWN : Z) (isamax_addr : Addr) (w : World) :
  let n := CInt.int64_t 0xffffffff00000003 in
  let X := [IEEE754.float_1_0; IEEE754.float_2_0; IEEE754.float_1_0] in
  let c := env_isamax env isamax_addr n X 1 (env_push_fake_lsame env w) in
  exec env (autodetect_blas_interface true LP64 ILP64 UNKNOWN isamax_addr) w
  = {| trace := [Log Push_fake_lsame tt;
                 Log (Call_isamax isamax_addr n X 1) (fst c);
                 Log Pop_fake_lsame tt];
       world := env_pop_fake_lsame env (snd c);
       result := if CInt.int64_t (fst c) =? 0 then ILP64
                 else if CInt.int64_t (fst c) =? 2 then LP64
                 else UNKNOWN |}.
Proof.
  intros n X c. subst c.
  unfold autodetect_blas_interface, isamax.
  cbn [ifdef push_fake_lsame pop_fake_lsame trigger bind exec answer].
  fold n X.
  destruct (env_isamax env isamax_addr n X 1 (env_push_fake_lsame env w))
    as [r w1].
  cbn [fst snd].
  (destruct (CInt.int64_t r =? 0); [ | destruct (CInt.int64_t r =? 2)]);
    reflexivity.
Qed.

End LsameScope.

Section PartialRuns.

Variable World : Type.
Variable env : Env World.
Variable no_return : Addr -> World -> bool.

(** When every routine returns, the partial run is the run. *)
Lemma exec_partial_returns {R : Type} (p : Prog R) (w : World) :
  (forall f w0, no_return f w0 = false) ->
  exec_partial env no_return p w =
  {| steps := map Returned (trace (exec env p w));
     last_world := world (exec env p w);
     outcome := Some (result (exec env p w)) |}.
Proof.
  intros Hret. revert w. induction p as [r | X e k IH]; intros w.
  - reflexivity.
  - cbn [exec_partial exec].
    assert (Hs : stuck World no_return e w = false).
    { unfold stuck. destruct (callee e); [apply Hret | reflexivity]. }
    rewrite Hs. destruct (answer env e w) as [x w'].
    rewrite IH. reflexivity.
Qed.

(** The BLAS sub-test of a deepbindless build when the probe may not come
    back: nothing is executed after a probe that does not return. *)
Lemma autodetect_blas_interface_deepbindless_partial
  (LP64 ILP64 UNKNOWN : Z) (isamax_addr : Addr) (w : World) :
  let n := CInt.int64_t 0xffffffff00000003 in
  let X := [IEEE754.float_1_0; IEEE754.float_2_0; IEEE754.float_1_0] in
  let w1 := env_push_fake_lsame env w in
  let c := env_isamax env isamax_addr n X 1 w1 in
  exec_partial env no_return
    (autodetect_blas_interface true LP64 ILP64 UNKNOWN isamax_addr) w
  = if no_return isamax_addr w1
    then {| steps := [Returned (Log Push_fake_lsame tt);
                      Entered (Call_isamax isamax_addr n X 1)];
            last_world := w1;
            outcome := None |}
    else {| steps := [Returned (Log Push_fake_lsame tt);
                      Returned (Log (Call_isamax isamax_addr n X 1) (fst c));
                      Returned (Log Pop_fake_lsame tt)];
            last_world := env_pop_fake_lsame env (snd c);
            outcome := Some (if CInt.int64_t (fst c) =? 0 then ILP64
                             else if CInt.int64_t (fst c) =? 2 then LP64
                             else UNKNOWN) |}.
Proof.
  intros n X w1 c. subst c w1.
  unfold autodetect_blas_interface, isamax. fold n X.
  cbn [ifdef push_fake_lsame pop_fake_lsame trigger bind exec_partial
       answer stuck callee].
  destruct (no_return isamax_addr (env_push_fake_lsame env w));
    [reflexivity | ].
  destruct (env_isamax env isamax_addr n X 1 (env_push_fake_lsame env w))
    as [r w2].
  cbn [fst snd].
  (destruct (CInt.int64_t r =? 0); [ | destruct (CInt.int64_t r =? 2)]);
    reflexivity.
Qed.

End PartialRuns.

(** C7, as the code has it: in a deepbindless build the BLAS sub-test
    pushes the fake [lsame_], enters the one [isamax] probe and, when the
    probe returns -- whatever it returns -- pops; nothing guards the pop, so
    after a probe that does not return nothing more is executed and the
    stand-in stays installed.  With a push that saves the target of
    [lsame_] and installs the stand-in, a pop that restores the saved
    target, and a probe that leaves the slot alone, the target after a
    sub-test whose probe returned is the target before it.  In the runs of
    [autodetect_interface], [autodetect_symbol_suffix] and
    [autodetect_f2c] every other event lies outside a push/pop pair. *)
Theorem fake_lsame_scoped_to_isamax_probe :
  forall (S : Type) (env : Env (LsameSlot * S))
         (no_return : Addr -> LsameSlot * S -> bool)
         (LP64 ILP64 UNKNOWN : Z) (PLAIN REQUIRED F2C_UNKNOWN : Z)
         (isamax_addr : Addr) (handle : Handle) (suffix : string)
         (w : LsameSlot * S),
    (forall w0, env_push_fake_lsame env w0 = (push_lsame (fst w0), snd w0)) ->
    (forall w0, env_pop_fake_lsame env w0 = (pop_lsame (fst w0), snd w0)) ->
    (forall f n X incx w0,
        fst (snd (env_isamax env f n X incx w0)) = fst w0) ->
    let n := CInt.int64_t 0xffffffff00000003 in
    let X := [IEEE754.float_1_0; IEEE754.float_2_0; IEEE754.float_1_0] in
    let w1 := env_push_fake_lsame env w in
    let c := env_isamax env isamax_addr n X 1 w1 in
    let run := exec_partial env no_return
                 (autodetect_blas_interface true LP64 ILP64 UNKNOWN
                    isamax_addr) w in
    (if no_return isamax_addr w1
     then
       steps run = [Returned (Log Push_fake_lsame tt);
                    Entered (Call_isamax isamax_addr n X 1)] /\
       outcome run = None /\
       lsame_target (fst (last_world run)) = fake_lsame
     else
       steps run = [Returned (Log Push_fake_lsame tt);
                    Returned (Log (Call_isamax isamax_addr n X 1) (fst c));
                    Returned (Log Pop_fake_lsame tt)] /\
       outcome run = Some (if CInt.int64_t (fst c) =? 0 then ILP64
                           else if CInt.int64_t (fst c) =? 2 then LP64
                           else UNKNOWN) /\
       lsame_target (fst (last_world run)) = lsame_target (fst w)) /\
    lsame_target
      (fst (world (exec env (autodetect_blas_interface true LP64 ILP64
                               UNKNOWN isamax_addr) w)))
    = lsame_target (fst w) /\
    lsame_scoped
      (trace (exec env (autodetect_interface true LP64 ILP64 UNKNOWN handle
                          suffix) w)) = true /\
    lsame_scoped (trace (exec env (autodetect_symbol_suffix handle) w))
      = true /\
    lsame_scoped
      (trace (exec env (autodetect_f2c PLAIN REQUIRED F2C_UNKNOWN handle
                          suffix) w)) = true.
Proof.
  intros S env no_return LP64 ILP64 UNKNOWN PLAIN REQUIRED F2C_UNKNOWN
         isamax_addr handle suffix w Hpush Hpop Hframe n X w1 c run.
  assert (Hrestored :
            lsame_target (fst (env_pop_fake_lsame env (snd c)))
            = lsame_target (fst w)).
  { rewrite Hpop. cbn [fst]. subst c. rewrite Hframe. subst w1.
    rewrite Hpush. reflexivity. }
  split; [ | split; [ | split; [ | split]]].
  - subst run. rewrite autodetect_blas_interface_deepbindless_partial.
    cbv zeta. fold n X w1 c.
    destruct (no_return isamax_addr w1); cbn [steps outcome last_world].
    + repeat split. subst w1. rewrite Hpush. reflexivity.
    + repeat split. exact Hrestored.
  - rewrite autodetect_blas_interface_deepbindless_exec. cbv zeta.
    cbn [world]. exact Hrestored.
  - unfold autodetect_interface, lookup_symbol, sprintf.
    cbn [trigger bind exec answer].
    destruct (env_lookup_symbol env handle ("isamax_" ++ suffix)) as [a | ].
    + rewrite autodetect_blas_interface_deepbindless_exec. reflexivity.
    + cbn [trigger bind exec answer].
      destruct (env_lookup_symbol env handle ("dpotrf_" ++ suffix)) as [d | ];
        [ | reflexivity].
      unfold autodetect_lapack_interface, dpotrf.
      cbn [trigger bind exec answer].
      match goal with
      | |- context [env_dpotrf ?e ?a ?u ?m ?t ?l ?i ?w0] =>
          destruct (env_dpotrf e a u m t l i w0) as [r w2]
      end.
      (destruct (CInt.uint64_t (CInt.int64_t r) =? 0xfffffffffffffffc);
       [ | destruct (CInt.int64_t r =? 0xfffffffc)]); reflexivity.
  - rewrite autodetect_symbol_suffix_exec. cbn [trace].
    apply lsame_scoped_queries.
  - destruct (env_lookup_symbol env handle ("sdot_" ++ suffix)) as [a | ] eqn:E.
    + rewrite (autodetect_f2c_exec _ env PLAIN REQUIRED F2C_UNKNOWN handle
                 suffix a w E).
      reflexivity.
    + unfold autodetect_f2c, lookup_symbol, sprintf.
      cbn [trigger bind exec answer]. rewrite E. reflexivity.
Qed.

Lemma fake_lsame_scoped_to_isamax_probe_witness :
  let env := slot_library (exports_only "isamax_" 4096) 2 in
  let w := slot_at_library in
  let n := CInt.int64_t 0xffffffff00000003 in
  let X := [IEEE754.float_1_0; IEEE754.float_2_0; IEEE754.float_1_0] in
  let run := exec_partial env (fun _ _ => false)
               (autodetect_blas_interface true 32 64 (-1) 4096) w in
  (steps run = [Returned (Log Push_fake_lsame tt);
                Returned (Log (Call_isamax 4096 n X 1) 2);
                Returned (Log Pop_fake_lsame tt)] /\
   outcome run = Some 32 /\
   lsame_target (fst (last_world run)) = library_lsame 12288) /\
  lsame_target
    (fst (world (exec env (autodetect_blas_interface true 32 64 (-1) 4096)
                   w)))
  = library_lsame 12288 /\
  lsame_scoped
    (trace (exec env (autodetect_interface true 32 64 (-1) 0 "") w)) = true /\
  lsame_scoped (trace (exec env (autodetect_symbol_suffix 0) w)) = true /\
  lsame_scoped (trace (exec env (autodetect_f2c 0 1 (-1) 0 "") w)) = true.
Proof.
  apply (fake_lsame_scoped_to_isamax_probe unit
           (slot_library (exports_only "isamax_" 4096) 2) (fun _ _ => false)
           32 64 (-1) 0 1 (-1) 4096 0 "" slot_at_library);
    intros; reflexivity.
Defined.

(** C7, as stated, fails: the substitution is not removed regardless of the
    probe's outcome.  In a deepbindless build, with [lsame_] pointing into a
    library and an [isamax] that does not return, the sub-test pushes,
    enters the probe and executes nothing more: the pop is never reached
    and [lsame_] is left pointing to the stand-in. *)
Lemma fake_lsame_left_installed :
  let env := slot_library (exports_only "isamax_" 4096) 2 in
  let w := slot_at_library in
  let n := CInt.int64_t 0xffffffff00000003 in
  let X := [IEEE754.float_1_0; IEEE754.float_2_0; IEEE754.float_1_0] in
  let run := exec_partial env (fun _ _ => true)
               (autodetect_blas_interface true 32 64 (-1) 4096) w in
  lsame_target (fst w) = library_lsame 12288 /\
  steps run = [Returned (Log Push_fake_lsame tt);
               Entered (Call_isamax 4096 n X 1)] /\
  outcome run = None /\
  lsame_target (fst (last_world run)) = fake_lsame /\
  lsame_target (fst (last_world run)) <> lsame_target (fst w).
Proof.
  cbv zeta. repeat split; try reflexivity.
  vm_compute. discriminate.
Qed.

(** ** The exported symbol table *)

Section Tables.

Context {A B : Type}.

(** An array generated from a list by [f], closed by the sentinel [d]. *)
Lemma nth_error_generated (f : A -> B) (d : B) (l : list A) (i : nat) :
  nth_error (map f l ++ [d]) i =
  match nth_error l i with
  | Some x => Some (f x)
  | None => if Nat.eqb i (List.length l) then Some d else None
  end.
Proof.
  revert i. induction l as [ | x l IH]; intros [ | i]; cbn; try reflexivity.
  - destruct i; reflexivity.
  - apply IH.
Qed.

End Tables.

Lemma append_cancel_l (s a b : string) :
  (s ++ a)%string = (s ++ b)%string -> a = b.
Proof.
  induction s as [ | ch s IH]; cbn; intros H; [exact H | ].
  injection H as H. exact (IH H).
Qed.

Lemma holders_distinct (name : string) :
  addr_holder name <> addr_holder_64 name.
Proof.
  unfold addr_holder, addr_holder_64. intros H.
  apply append_cancel_l in H. discriminate.
Qed.

(** C8: the name array and the two address arrays are generated from the
    same registry: each has one entry per registry name, in registry order,
    followed by one NULL; entry [i] of the address arrays is the 32-bit and
    the 64-bit holder of name [i], two different variables, both among the
    declared holders, of which there are two per registry entry. *)
Theorem exported_tables_parallel :
  forall (registry : list string) (i : nat),
    let names := exported_func_names registry in
    let addrs32 := exported_func32_addrs registry in
    let addrs64 := exported_func64_addrs registry in
    List.length names = S (List.length registry) /\
    List.length addrs32 = S (List.length registry) /\
    List.length addrs64 = S (List.length registry) /\
    List.length (holder_declarations registry)
      = (2 * List.length registry)%nat /\
    match nth_error registry i with
    | Some name =>
        nth_error names i = Some (Some name) /\
        nth_error addrs32 i = Some (Some (addr_holder name)) /\
        nth_error addrs64 i = Some (Some (addr_holder_64 name)) /\
        addr_holder name <> addr_holder_64 name /\
        In (addr_holder name) (holder_declarations registry) /\
        In (addr_holder_64 name) (holder_declarations registry)
    | None =>
        let last := if Nat.eqb i (List.length registry) then Some None
                    else None in
        nth_error names i = last /\
        nth_error addrs32 i = last /\
        nth_error addrs64 i = last
    end.
Proof.
  intros registry i names addrs32 addrs64.
  subst names addrs32 addrs64.
  unfold exported_func_names, exported_func32_addrs, exported_func64_addrs,
    holder_declarations, EXPORTED_FUNCS.
  rewrite !length_app, !length_map. cbn [List.length].
  repeat (split; [lia | ]).
  rewrite !nth_error_generated.
  destruct (nth_error registry i) as [name | ] eqn:E.
  - repeat (split; [reflexivity | ]).
    split; [apply holders_distinct | ].
    apply nth_error_In in E.
    split; apply in_or_app; [left | right]; apply in_map; exact E.
  - cbv zeta. repeat split; reflexivity.
Qed.

(** ** Conversion of a [double] to [float] around [0.25] *)

Section Narrowing.

Import IEEE754.

Lemma round_nearest_even_bounds (m d : Z) :
  m / 2 ^ d <= round_nearest_even m d <= m / 2 ^ d + 1.
Proof.
  unfold round_nearest_even.
  destruct (m mod 2 ^ d <? 2 ^ (d - 1)); [lia | ].
  destruct (2 ^ (d - 1) <? m mod 2 ^ d); [lia | ].
  destruct (Z.even (m / 2 ^ d)); lia.
Qed.

(** A value whose rounded significand stays below [2^147] at the exponent
    [-149] of the subnormals cannot convert to [0.25]. *)
Lemma to_binary32_tiny (s : bool) (m e : Z) :
  0 <= m < 2 ^ 53 -> e < -149 -> Z.log2 m + 1 + e - 24 <= -149 ->
  fp_eqb (to_binary32 (Fin s m e)) (Fin false (2 ^ 52) (-54)) = false.
Proof.
  intros Hm He Hl. unfold to_binary32.
  rewrite Z.max_l by lia.
  destruct (Z.leb_spec (-149) e) as [Hle | _]; [lia | ].
  pose proof (round_nearest_even_bounds m (-149 - e)) as Hq.
  set (q := round_nearest_even m (-149 - e)) in *. clearbody q.
  assert (Hd : 0 <= m / 2 ^ (-149 - e) <= m).
  { split; [apply Z.div_pos; [lia | apply Z.pow_pos_nonneg; lia] | ].
    apply Z.div_le_upper_bound; [apply Z.pow_pos_nonneg; lia | ].
    assert (1 <= 2 ^ (-149 - e))
      by (pose proof (Z.pow_pos_nonneg 2 (-149 - e) ltac:(lia) ltac:(lia));
          lia).
    nia. }
  destruct (2 ^ 277 <=? q * 2 ^ (-149 + 149)); [reflexivity | ].
  apply (fin_below_quarter s q (-149) 54); [lia | | lia].
  change (2 ^ 54) with (2 * 2 ^ 53). lia.
Qed.

(** The conversion of a normal [double] that is not flushed to the
    subnormal exponent: 29 bits of the significand are rounded away. *)
Lemma to_binary32_normal (s : bool) (m e : Z) :
  2 ^ 52 <= m < 2 ^ 53 -> -149 <= e + 29 ->
  to_binary32 (Fin s m e) =
  if 2 ^ 277 <=? round_nearest_even m 29 * 2 ^ (e + 29 + 149)
  then Inf s
  else Fin s (round_nearest_even m 29) (e + 29).
Proof.
  intros Hm He. unfold to_binary32.
  rewrite (Z.log2_unique m 52) by (change (2 ^ (52 + 1)) with (2 ^ 53); lia).
  replace (52 + 1 + e - 24) with (e + 29) by lia.
  rewrite Z.max_r by lia.
  destruct (Z.leb_spec (e + 29) e) as [Hle | _]; [lia | ].
  replace (e + 29 - e) with 29 by lia. reflexivity.
Qed.

(** Rounding 29 bits off a 53-bit significand gives [2^23] exactly for the
    significands up to the midpoint above [2^52], and [2^24] exactly from
    the midpoint below [2^53] on. *)
Lemma round_nearest_even_29 (m : Z) :
  2 ^ 52 <= m < 2 ^ 53 ->
  2 ^ 23 <= round_nearest_even m 29 <= 2 ^ 24 /\
  (round_nearest_even m 29 = 2 ^ 23 <-> m <= 2 ^ 52 + 2 ^ 28) /\
  (round_nearest_even m 29 = 2 ^ 24 <-> 2 ^ 53 - 2 ^ 28 <= m).
Proof.
  intros Hm. unfold round_nearest_even.
  change (2 ^ (29 - 1)) with 268435456.
  change (2 ^ 29) with 536870912.
  change (2 ^ 23) with 8388608. change (2 ^ 24) with 16777216.
  change (2 ^ 52) with 4503599627370496 in *.
  change (2 ^ 53) with 9007199254740992 in *.
  change (2 ^ 28) with 268435456.
  pose proof (Z.div_mod m 536870912 ltac:(lia)) as D.
  pose proof (Z.mod_pos_bound m 536870912 ltac:(lia)) as B.
  set (fl := m / 536870912) in *. set (rm := m mod 536870912) in *.
  clearbody fl rm.
  assert (Hfl : 8388608 <= fl < 16777216) by lia.
  destruct (Z.ltb_spec rm 268435456) as [H1 | H1].
  { repeat split; intros; lia. }
  destruct (Z.ltb_spec 268435456 rm) as [H2 | H2].
  { repeat split; intros; lia. }
  assert (Hr : rm = 268435456) by lia.
  destruct (Z.even fl) eqn:Ev.
  - apply Z.even_spec in Ev. destruct Ev as [h Eh].
    repeat split; intros; lia.
  - assert (Od : Z.odd fl = true) by (rewrite <- Z.negb_even, Ev; reflexivity).
    apply Z.odd_spec in Od. destruct Od as [h Eh].
    repeat split; intros; lia.
Qed.

(** The [double] patterns that compare equal to [0.25] once converted to
    [float]: those from the midpoint below [0.25] to the midpoint above. *)
Lemma to_binary32_eq_quarter (r : Z) :
  fp_eqb (to_binary32 (binary64 r)) (binary64 double_0_25) = true <->
  0x3FCFFFFFF0000000 <= r mod 2 ^ 64 <= 0x3FD0000010000000.
Proof.
  change (binary64 double_0_25) with (Fin false (2 ^ 52) (-54)).
  unfold binary64, decode. change (2 ^ (1 + 11 + 52)) with (2 ^ 64).
  set (b := r mod 2 ^ 64).
  assert (Hb : 0 <= b < 2 ^ (1 + 11 + 52))
    by (apply Z.mod_pos_bound; reflexivity).
  destruct (decode_fields 11 52 b ltac:(lia) ltac:(lia) Hb)
    as (Hex & Hfrac & Hdec).
  clearbody b.
  set (s := Z.testbit b (11 + 52)) in *.
  set (ex := Z.land (Z.shiftr b 52) (2 ^ 11 - 1)) in *.
  set (frac := Z.land b (2 ^ 52 - 1)) in *.
  clearbody s ex frac. subst b. clear Hb.
  change (2 ^ (11 - 1) - 1) with 1023.
  change (2 ^ 11 - 1) with 2047. change (2 ^ 11) with 2048 in Hex.
  change (2 ^ (11 + 52)) with (2048 * 2 ^ 52).
  assert (Hs : Z.b2z s = 0 \/ Z.b2z s = 1) by (destruct s; cbn; lia).
  destruct (Z.eqb_spec ex 2047) as [Emax | Nmax].
  { split.
    - destruct (frac =? 0); cbn [to_binary32 fp_eqb]; discriminate.
    - intros H. exfalso. lia. }
  destruct (Z.eqb_spec ex 0) as [E0 | N0].
  { rewrite to_binary32_tiny.
    - split; [discriminate | intros H; exfalso; lia].
    - lia.
    - lia.
    - destruct (Z.eq_dec frac 0) as [F0 | F0]; [subst frac; cbn; lia | ].
      assert (Z.log2 frac < 52); [ | lia].
      apply Z.log2_lt_pow2; [lia | exact (proj2 Hfrac)]. }
  destruct (Z_le_gt_dec (ex - 1023 - 52 + 29) (-150)) as [Hsub | Hnorm].
  { rewrite to_binary32_tiny.
    - split; [discriminate | intros H; exfalso; lia].
    - lia.
    - lia.
    - rewrite (Z.log2_unique (frac + 2 ^ 52) 52); lia. }
  assert (Hm : 2 ^ 52 <= frac + 2 ^ 52 < 2 ^ 53) by lia.
  rewrite (to_binary32_normal s (frac + 2 ^ 52) _ Hm) by lia.
  destruct (round_nearest_even_29 (frac + 2 ^ 52) Hm) as (Hq & Hq23 & Hq24).
  set (q := round_nearest_even (frac + 2 ^ 52) 29) in *. clearbody q.
  replace (ex - 1023 - 52 + 29 + 149) with (ex - 897) by lia.
  replace (ex - 1023 - 52 + 29) with (ex - 1046) by lia.
  destruct (Z.leb_spec (2 ^ 277) (q * 2 ^ (ex - 897))) as [Hov | Hno].
  { split; [discriminate | ]. intros H. exfalso.
    assert (Hex' : ex <= 1021) by lia.
    assert (Hp : 2 ^ (ex - 897) <= 2 ^ 124) by (apply Z.pow_le_mono_r; lia).
    pose proof (Z.pow_pos_nonneg 2 (ex - 897) ltac:(lia) ltac:(lia)) as Hp0.
    set (p := 2 ^ (ex - 897)) in *. clearbody p.
    assert (q * p <= 2 ^ 24 * 2 ^ 124) by (apply Z.mul_le_mono_nonneg; lia).
    change (2 ^ 24 * 2 ^ 124) with (2 ^ 148) in *.
    assert (2 ^ 148 < 2 ^ 277) by (apply Z.pow_lt_mono_r; lia).
    lia. }
  split.
  - intros H.
    destruct (Z.eq_dec q (2 ^ 24)) as [Eq | Nq].
    + apply (fin_eq_quarter s q _ 24) in H;
        [ | lia | rewrite Eq; change (2 ^ (24 + 1)) with (2 * 2 ^ 24); lia].
      destruct H as (Hsf & _ & He). subst s. cbn [Z.b2z].
      apply Hq24 in Eq. change (2 ^ 28) with 268435456 in Eq. lia.
    + apply (fin_eq_quarter s q _ 23) in H;
        [ | lia | change (2 ^ (23 + 1)) with (2 ^ 24); lia].
      destruct H as (Hsf & Hq' & He). subst s. cbn [Z.b2z].
      apply Hq23 in Hq'. change (2 ^ 28) with 268435456 in Hq'. lia.
  - intros H.
    assert (Hsf : s = false) by (destruct s; [cbn [Z.b2z] in H; lia | reflexivity]).
    subst s. cbn [Z.b2z] in H.
    assert (Hex' : ex = 1020 \/ ex = 1021) by lia.
    destruct Hex' as [E | E]; subst ex.
    + assert (Eq : q = 2 ^ 24)
        by (apply Hq24; change (2 ^ 28) with 268435456; lia).
      rewrite Eq. reflexivity.
    + assert (Eq : q = 2 ^ 23)
        by (apply Hq23; change (2 ^ 28) with 268435456; lia).
      rewrite Eq. reflexivity.
Qed.

End Narrowing.

(** * Further properties of the detection code *)

(** ** Runs of the two sub-tests *)

Section SubTests.

Variable World : Type.
Variable env : Env World.
Variable deepbindless : bool.
Variables LP64 ILP64 UNKNOWN : Z.

Lemma autodetect_blas_interface_exec (isamax_addr : Addr) (w : World) :
  let n := CInt.int64_t 0xffffffff00000003 in
  let X := [IEEE754.float_1_0; IEEE754.float_2_0; IEEE754.float_1_0] in
  let w0 := if deepbindless then env_push_fake_lsame env w else w in
  let c := env_isamax env isamax_addr n X 1 w0 in
  exec env (autodetect_blas_interface deepbindless LP64 ILP64 UNKNOWN
              isamax_addr) w
  = {| trace := (if deepbindless then [Log Push_fake_lsame tt] else [])
                ++ Log (Call_isamax isamax_addr n X 1) (fst c)
                   :: (if deepbindless then [Log Pop_fake_lsame tt] else []);
       world := if deepbindless then env_pop_fake_lsame env (snd c)
                else snd c;
       result := if CInt.int64_t (fst c) =? 0 then ILP64
                 else if CInt.int64_t (fst c) =? 2 then LP64
                 else UNKNOWN |}.
Proof.
  intros n X w0 c. subst c w0.
  unfold autodetect_blas_interface, isamax. fold n X.
  destruct deepbindless;
    cbn [ifdef push_fake_lsame pop_fake_lsame trigger bind exec answer];
    match goal with
    | |- context [env_isamax ?e ?a ?n0 ?x ?i ?w0] =>
        destruct (env_isamax e a n0 x i w0) as [r w1]
    end;
    cbn [fst snd app];
    (destruct (CInt.int64_t r =? 0); [ | destruct (CInt.int64_t r =? 2)]);
    reflexivity.
Qed.

Lemma autodetect_lapack_interface_exec (dpotrf_addr : Addr) (w : World) :
  let testmat : list (option Z) := [None; None; None; None] in
  let c := env_dpotrf env dpotrf_addr "U"%char 2 testmat 0 0 w in
  exec env (autodetect_lapack_interface LP64 ILP64 UNKNOWN dpotrf_addr) w
  = {| trace := [Log (Call_dpotrf dpotrf_addr "U"%char 2 testmat 0 0) (fst c)];
       world := snd c;
       result := if CInt.uint64_t (fst c) =? 0xfffffffffffffffc then ILP64
                 else if CInt.uint64_t (fst c) =? 0xfffffffc then LP64
                 else UNKNOWN |}.
Proof.
  intros testmat c. subst c.
  unfold autodetect_lapack_interface, dpotrf. fold testmat.
  cbn [trigger bind exec answer].
  destruct (env_dpotrf env dpotrf_addr "U"%char 2 testmat 0 0 w) as [r w1].
  cbn [fst snd].
  rewrite uint64_of_int64, (int64_eqb_nonneg r 0xfffffffc) by lia.
  (destruct (CInt.uint64_t r =? 0xfffffffffffffffc);
   [ | destruct (CInt.uint64_t r =? 0xfffffffc)]); reflexivity.
Qed.

(** The run of [autodetect_interface], by what the loader resolves. *)
Lemma autodetect_interface_exec (handle : Handle) (suffix : string)
  (w : World) :
  let isamax_name := ("isamax_" ++ suffix)%string in
  let dpotrf_name := ("dpotrf_" ++ suffix)%string in
  exec env (autodetect_interface deepbindless LP64 ILP64 UNKNOWN handle
              suffix) w =
  match env_lookup_symbol env handle isamax_name with
  | Some a =>
      let o := exec env (autodetect_blas_interface deepbindless LP64 ILP64
                           UNKNOWN a) w in
      {| trace := Log (Lookup_symbol handle isamax_name) (Some a) :: trace o;
         world := world o; result := result o |}
  | None =>
      match env_lookup_symbol env handle dpotrf_name with
      | Some d =>
          let o := exec env (autodetect_lapack_interface LP64 ILP64 UNKNOWN
                               d) w in
          {| trace := Log (Lookup_symbol handle isamax_name) None
                      :: Log (Lookup_symbol handle dpotrf_name) (Some d)
                      :: trace o;
             world := world o; result := result o |}
      | None =>
          {| trace := [Log (Lookup_symbol handle isamax_name) None;
                       Log (Lookup_symbol handle dpotrf_name) None];
             world := w; result := UNKNOWN |}
      end
  end.
Proof.
  intros isamax_name dpotrf_name. subst isamax_name dpotrf_name.
  unfold autodetect_interface, lookup_symbol, sprintf.
  cbn [trigger bind exec answer].
  destruct (env_lookup_symbol env handle ("isamax_" ++ suffix)) as [a | ].
  - reflexivity.
  - cbn [trigger bind exec answer].
    destruct (env_lookup_symbol env handle ("dpotrf_" ++ suffix)) as [d | ];
      reflexivity.
Qed.

End SubTests.

(** ** What the suffix search finds *)

Section SuffixFacts.

Variable World : Type.
Variable env : Env World.
Variable handle : Handle.

(** A returned suffix comes from a candidate that resolves. *)
Lemma autodetect_symbol_suffix_found (w : World) (s : string) :
  result (exec env (autodetect_symbol_suffix handle) w) = Some s ->
  exists stem a,
    In stem symbol_names /\ In s suffixes /\
    env_lookup_symbol env handle (stem ++ s) = Some a.
Proof.
  rewrite autodetect_symbol_suffix_exec. cbn [result].
  destruct (find (resolves env handle) candidate_order) as [c | ] eqn:E;
    [ | discriminate].
  cbn [option_map]. intros H. injection H as H.
  apply find_some in E. destruct E as [Hin Hres].
  unfold candidate_order in Hin. apply in_flat_map in Hin.
  destruct Hin as (stem & Hstem & Hc).
  apply in_map_iff in Hc. destruct Hc as (suffix & Hc & Hsuf).
  subst c. cbn [snd] in H. subst suffix.
  unfold resolves, candidate_name in Hres. cbn [fst snd] in Hres.
  destruct (env_lookup_symbol env handle (stem ++ s)) as [a | ] eqn:El;
    [ | discriminate].
  exists stem, a. repeat split; assumption.
Qed.

Lemma upto_first_incl {A : Type} (p : A -> bool) (l : list A) (x : A) :
  In x (upto_first p l) -> In x l.
Proof.
  induction l as [ | y l IH]; cbn; [tauto | ].
  destruct (p y); cbn; intros [H | H]; auto. contradiction.
Qed.

Lemma queried_names_queries (cs : list (string * string)) :
  queried_names (map (query env handle) cs) = map candidate_name cs.
Proof.
  induction cs as [ | c cs IH]; [reflexivity | ].
  cbn [map]. unfold queried_names in *. cbn [flat_map query app].
  rewrite IH. reflexivity.
Qed.

End SuffixFacts.

(** X1: a suffix returned by [autodetect_symbol_suffix] is one of the six
    candidates, and one of the two stems decorated with it resolves. *)
Theorem autodetect_symbol_suffix_sound :
  forall (World : Type) (env : Env World) (handle : Handle) (w : World)
         (s : string),
    result (exec env (autodetect_symbol_suffix handle) w) = Some s ->
    In s suffixes /\
    exists stem a,
      In stem symbol_names /\
      env_lookup_symbol env handle (stem ++ s) = Some a.
Proof.
  intros World env handle w s H.
  destruct (autodetect_symbol_suffix_found World env handle w s H)
    as (stem & a & Hstem & Hs & Hl).
  split; [exact Hs | ]. exists stem, a. split; assumption.
Qed.

Lemma autodetect_symbol_suffix_sound_witness :
  In "_64__"%string suffixes /\
  exists stem a,
    In stem symbol_names /\
    env_lookup_symbol only_isamax_64 0 (stem ++ "_64__") = Some a.
Proof.
  apply (autodetect_symbol_suffix_sound unit only_isamax_64 0 tt).
  reflexivity.
Defined.

(** X2: with a suffix that [autodetect_symbol_suffix] returned,
    [autodetect_interface] always reaches a probe: it enters exactly one
    foreign routine, in every build and from every world. *)
Theorem detected_suffix_reaches_a_probe :
  forall (World : Type) (env : Env World) (deepbindless : bool)
         (LP64 ILP64 UNKNOWN : Z) (handle : Handle) (w w' : World)
         (s : string),
    result (exec env (autodetect_symbol_suffix handle) w) = Some s ->
    List.length
      (filter is_foreign_call
         (trace (exec env (autodetect_interface deepbindless LP64 ILP64
                             UNKNOWN handle s) w'))) = 1%nat.
Proof.
  intros World env deepbindless LP64 ILP64 UNKNOWN handle w w' s H.
  destruct (autodetect_symbol_suffix_found World env handle w s H)
    as (stem & a & Hstem & _ & Hl).
  rewrite autodetect_interface_exec. cbv zeta.
  destruct (env_lookup_symbol env handle ("isamax_" ++ s)) as [i | ] eqn:Ei.
  - rewrite autodetect_blas_interface_exec. cbv zeta.
    destruct deepbindless; reflexivity.
  - assert (Hd : stem = "dpotrf_"%string).
    { cbn [symbol_names In] in Hstem.
      destruct Hstem as [E | [E | []]]; [ | symmetry; exact E].
      subst stem. rewrite Hl in Ei. discriminate. }
    subst stem. rewrite Hl.
    rewrite autodetect_lapack_interface_exec. reflexivity.
Qed.

Lemma detected_suffix_reaches_a_probe_witness :
  List.length
    (filter is_foreign_call
       (trace (exec only_isamax_64
                 (autodetect_interface true 32 64 (-1) 0 "_64__") tt)))
  = 1%nat.
Proof.
  apply (detected_suffix_reaches_a_probe unit only_isamax_64 true 32 64 (-1)
           0 tt tt "_64__").
  reflexivity.
Defined.

(** X3: the BLAS stem wins: when some candidate name of [isamax_] resolves,
    the returned suffix is one with which [isamax_] resolves, and no name
    of [dpotrf_] is ever handed to the loader. *)
Theorem autodetect_symbol_suffix_prefers_isamax :
  forall (World : Type) (env : Env World) (handle : Handle) (w : World)
         (s : string) (a : Addr),
    In s suffixes ->
    env_lookup_symbol env handle ("isamax_" ++ s) = Some a ->
    let o := exec env (autodetect_symbol_suffix handle) w in
    (exists s' a',
       result o = Some s' /\ In s' suffixes /\
       env_lookup_symbol env handle ("isamax_" ++ s') = Some a') /\
    Forall (fun name => exists suffix, name = ("isamax_" ++ suffix)%string)
           (queried_names (trace o)).
Proof.
  intros World env handle w s a Hs Hl o. subst o.
  rewrite autodetect_symbol_suffix_exec. cbn [trace result].
  set (blas := map (fun suffix => ("isamax_"%string, suffix)) suffixes).
  set (lapack := map (fun suffix => ("dpotrf_"%string, suffix)) suffixes).
  change candidate_order with (blas ++ lapack).
  rewrite find_append, upto_first_append.
  destruct (find (resolves env handle) blas) as [c | ] eqn:E.
  - apply find_some in E. destruct E as [Hin Hres].
    split.
    + subst blas. apply in_map_iff in Hin.
      destruct Hin as (s' & Hc & Hs'). subst c.
      unfold resolves, candidate_name in Hres. cbn [fst snd] in Hres.
      destruct (env_lookup_symbol env handle ("isamax_" ++ s'))
        as [a' | ] eqn:El; [ | discriminate].
      exists s', a'. repeat split; assumption.
    + rewrite queried_names_queries. apply Forall_forall.
      intros name Hname. apply in_map_iff in Hname.
      destruct Hname as (c' & Hn & Hc'). apply upto_first_incl in Hc'.
      subst blas. apply in_map_iff in Hc'.
      destruct Hc' as (s' & Hc' & _). subst c' name.
      exists s'. reflexivity.
  - exfalso.
    pose proof (proj1 (find_none_iff _ _) E ("isamax_"%string, s)) as Hn.
    assert (Hin : In ("isamax_"%string, s) blas)
      by (subst blas; apply in_map; exact Hs).
    specialize (Hn Hin). unfold resolves, candidate_name in Hn.
    cbn [fst snd] in Hn. rewrite Hl in Hn. discriminate.
Qed.

Lemma autodetect_symbol_suffix_prefers_isamax_witness :
  (exists s' a',
     result (exec mixed_exports (autodetect_symbol_suffix 0) tt) = Some s' /\
     In s' suffixes /\
     env_lookup_symbol mixed_exports 0 ("isamax_" ++ s') = Some a') /\
  Forall (fun name => exists suffix, name = ("isamax_" ++ suffix)%string)
         (queried_names
            (trace (exec mixed_exports (autodetect_symbol_suffix 0) tt))).
Proof.
  apply (autodetect_symbol_suffix_prefers_isamax unit mixed_exports 0 tt
           "64_"%string 8192).
  - cbn. tauto.
  - reflexivity.
Defined.

(** X4: the [lsame_] substitution is installed and removed in deepbindless
    builds on the BLAS path only: the pushes and pops of a run of
    [autodetect_interface] are one push and one pop when the build is
    deepbindless and [isamax_ ++ suffix] resolves, and none otherwise (in
    particular none around the [dpotrf] probe). *)
Theorem lsame_swap_only_on_deepbindless_blas_path :
  forall (World : Type) (env : Env World) (deepbindless : bool)
         (LP64 ILP64 UNKNOWN : Z) (handle : Handle) (suffix : string)
         (w : World),
    filter is_lsame_swap
      (trace (exec env (autodetect_interface deepbindless LP64 ILP64 UNKNOWN
                          handle suffix) w))
    = match env_lookup_symbol env handle ("isamax_" ++ suffix) with
      | Some _ => if deepbindless
                  then [Log Push_fake_lsame tt; Log Pop_fake_lsame tt]
                  else []
      | None => []
      end.
Proof.
  intros World env deepbindless LP64 ILP64 UNKNOWN handle suffix w.
  rewrite autodetect_interface_exec. cbv zeta.
  destruct (env_lookup_symbol env handle ("isamax_" ++ suffix)) as [a | ].
  - rewrite autodetect_blas_interface_exec. cbv zeta.
    destruct deepbindless; reflexivity.
  - destruct (env_lookup_symbol env handle ("dpotrf_" ++ suffix)) as [d | ];
      [ | reflexivity].
    rewrite autodetect_lapack_interface_exec. reflexivity.
Qed.

(** X5: [autodetect_interface] returns one of the three interface codes,
    hands at most two names to the loader and enters at most one foreign
    routine. *)
Theorem autodetect_interface_bounds :
  forall (World : Type) (env : Env World) (deepbindless : bool)
         (LP64 ILP64 UNKNOWN : Z) (handle : Handle) (suffix : string)
         (w : World),
    let o := exec env (autodetect_interface deepbindless LP64 ILP64 UNKNOWN
                         handle suffix) w in
    (result o = LP64 \/ result o = ILP64 \/ result o = UNKNOWN) /\
    (List.length (queried_names (trace o)) <= 2)%nat /\
    (List.length (filter is_foreign_call (trace o)) <= 1)%nat.
Proof.
  intros World env deepbindless LP64 ILP64 UNKNOWN handle suffix w o.
  subst o. rewrite autodetect_interface_exec. cbv zeta.
  destruct (env_lookup_symbol env handle ("isamax_" ++ suffix)) as [a | ].
  - rewrite autodetect_blas_interface_exec. cbv zeta. cbn [trace result].
    split.
    + match goal with
      | |- context [CInt.int64_t ?r =? 0] =>
          destruct (CInt.int64_t r =? 0); [ | destruct (CInt.int64_t r =? 2)]
      end; auto.
    + destruct deepbindless; cbn; lia.
  - destruct (env_lookup_symbol env handle ("dpotrf_" ++ suffix)) as [d | ].
    + rewrite autodetect_lapack_interface_exec. cbv zeta. cbn [trace result].
      split.
      * match goal with
        | |- context [CInt.uint64_t ?r =? 0xfffffffffffffffc] =>
            destruct (CInt.uint64_t r =? 0xfffffffffffffffc);
            [ | destruct (CInt.uint64_t r =? 0xfffffffc)]
        end; auto.
      * cbn; lia.
    + cbn. split; [auto | lia].
Qed.

(** A 32-bit store into a zeroed slot leaves the word in the low half. *)
Lemma store_low32_zero (v : Z) : store_low32 0 v = v mod 2 ^ 32.
Proof. reflexivity. Qed.

(** X6: [info] starts as 0, so when the probed [dpotrf] stores only a
    32-bit word [v] at [info], the result is LP64 if [v] is the 32-bit [-4]
    and UNKNOWN otherwise; such a library is never taken for ILP64. *)
Theorem autodetect_lapack_interface_low_half_store :
  forall (World : Type) (env : Env World) (LP64 ILP64 UNKNOWN : Z)
         (dpotrf_addr : Addr) (w : World) (v : Z),
    (forall uplo m testmat lda info,
        fst (env_dpotrf env dpotrf_addr uplo m testmat lda info w)
        = store_low32 info v) ->
    result (exec env (autodetect_lapack_interface LP64 ILP64 UNKNOWN
                        dpotrf_addr) w)
    = if CInt.int32_t v =? -4 then LP64 else UNKNOWN.
Proof.
  intros World env LP64 ILP64 UNKNOWN dpotrf_addr w v Hstore.
  rewrite autodetect_lapack_interface_exec. cbv zeta. cbn [result].
  rewrite Hstore, store_low32_zero.
  pose proof (Z.mod_pos_bound v (2 ^ 32) ltac:(lia)) as Hb.
  unfold CInt.uint64_t, CInt.int32_t.
  rewrite (Z.mod_small (v mod 2 ^ 32) (2 ^ 64)) by lia.
  destruct (Z.eqb_spec (v mod 2 ^ 32) 0xfffffffffffffffc) as [E | _];
    [lia | ].
  assert (Hi : (v + 2 ^ 31) mod 2 ^ 32 - 2 ^ 31 = -4 <->
               v mod 2 ^ 32 = 0xfffffffc).
  { change (2 ^ 31) with 2147483648. change (2 ^ 32) with 4294967296.
    Z.to_euclidean_division_equations. lia. }
  destruct (Z.eqb_spec (v mod 2 ^ 32) 0xfffffffc) as [E | N];
    destruct (Z.eqb_spec ((v + 2 ^ 31) mod 2 ^ 32 - 2 ^ 31) (-4)) as [E' | N'];
    try reflexivity.
  - exfalso. apply N'. apply Hi. exact E.
  - exfalso. apply N. apply Hi. exact E'.
Qed.

Lemma autodetect_lapack_interface_low_half_store_witness :
  result (exec dpotrf_lp64 (autodetect_lapack_interface 32 64 (-1) 4096) tt)
  = 32.
Proof.
  apply (autodetect_lapack_interface_low_half_store unit dpotrf_lp64 32 64
           (-1) 4096 tt (-4)).
  intros. reflexivity.
Defined.

(** X7: the patterns behind the three results of [autodetect_f2c]: PLAIN
    exactly for the [float] pattern [0x3E800000]; otherwise REQUIRED exactly
    for a [double] pattern between [0x3FCFFFFFF0000000] and
    [0x3FD0000010000000] (the doubles that round to [0.25f]); otherwise
    UNKNOWN. *)
Theorem autodetect_f2c_patterns :
  forall (World : Type) (env : Env World) (PLAIN REQUIRED UNKNOWN : Z)
         (handle : Handle) (suffix : string) (sdot_addr : Addr) (w : World)
         (r1 r2 : Z) (l1 l2 : SdotLocals) (w1 w2 : World),
    let half := [IEEE754.float_0_5] in
    env_lookup_symbol env handle ("sdot_" ++ suffix) = Some sdot_addr ->
    env_sdot_plain env sdot_addr 1 half 1 half 1 w = (r1, l1, w1) ->
    env_sdot_f2c env sdot_addr (loc_n l1) (loc_A l1) (loc_inca l1) (loc_B l1)
                 (loc_incb l1) w1 = (r2, l2, w2) ->
    result (exec env (autodetect_f2c PLAIN REQUIRED UNKNOWN handle suffix) w)
    = if r1 mod 2 ^ 32 =? 0x3E800000 then PLAIN
      else if (0x3FCFFFFFF0000000 <=? r2 mod 2 ^ 64)
              && (r2 mod 2 ^ 64 <=? 0x3FD0000010000000)
           then REQUIRED
           else UNKNOWN.
Proof.
  intros World env PLAIN REQUIRED UNKNOWN handle suffix sdot_addr w r1 r2
         l1 l2 w1 w2 half Hsym H1 H2.
  rewrite (autodetect_f2c_exec World env PLAIN REQUIRED UNKNOWN handle suffix
             sdot_addr w Hsym).
  cbv zeta. cbn [result]. fold half. rewrite H1. cbn [fst snd]. rewrite H2.
  cbn [fst].
  assert (Hn : IEEE754.fp_eqb (IEEE754.binary32 r1)
                 (IEEE754.binary64 IEEE754.double_0_25)
               = (r1 mod 2 ^ 32 =? 0x3E800000)).
  { destruct (Z.eqb_spec (r1 mod 2 ^ 32) 0x3E800000) as [E | N].
    - apply binary32_eq_quarter. exact E.
    - apply not_true_is_false. intros H. apply N.
      apply binary32_eq_quarter. exact H. }
  assert (Hw : IEEE754.fp_eqb
                 (IEEE754.to_binary32 (IEEE754.binary64 r2))
                 (IEEE754.binary64 IEEE754.double_0_25)
               = (0x3FCFFFFFF0000000 <=? r2 mod 2 ^ 64)
                 && (r2 mod 2 ^ 64 <=? 0x3FD0000010000000)).
  { destruct ((0x3FCFFFFFF0000000 <=? r2 mod 2 ^ 64)
              && (r2 mod 2 ^ 64 <=? 0x3FD0000010000000)) eqn:E.
    - apply to_binary32_eq_quarter.
      apply andb_prop in E. destruct E as [E1 E2].
      apply Z.leb_le in E1. apply Z.leb_le in E2. split; assumption.
    - apply not_true_is_false. intros H.
      apply to_binary32_eq_quarter in H. destruct H as [E1 E2].
      apply Z.leb_le in E1. apply Z.leb_le in E2.
      rewrite E1, E2 in E. discriminate. }
  rewrite Hn, Hw. reflexivity.
Qed.

Lemma autodetect_f2c_patterns_witness :
  result (exec sdot_above_quarter (autodetect_f2c 0 1 (-1) 0 "") tt)
  = if (sdot_register mod 2 ^ 32) mod 2 ^ 32 =? 0x3E800000 then 0
    else if (0x3FCFFFFFF0000000 <=? sdot_register mod 2 ^ 64)
            && (sdot_register mod 2 ^ 64 <=? 0x3FD0000010000000)
         then 1
         else -1.
Proof.
  apply (autodetect_f2c_patterns unit sdot_above_quarter 0 1 (-1) 0 "" 4096
           tt (sdot_register mod 2 ^ 32) sdot_register
           (untouched 1 [IEEE754.float_0_5] 1 [IEEE754.float_0_5] 1)
           (untouched 1 [IEEE754.float_0_5] 1 [IEEE754.float_0_5] 1) tt tt);
    reflexivity.
Defined.

(** X9: [autodetect_f2c] hands the single name [sdot_ ++ suffix] to the
    loader, enters the resolved routine exactly twice (never when the name
    does not resolve), installs no [lsame_] substitution, and returns 0 or
    one of the three f2c codes. *)
Theorem autodetect_f2c_bounds :
  forall (World : Type) (env : Env World) (PLAIN REQUIRED UNKNOWN : Z)
         (handle : Handle) (suffix : string) (w : World),
    let o := exec env (autodetect_f2c PLAIN REQUIRED UNKNOWN handle suffix) w in
    queried_names (trace o) = [("sdot_" ++ suffix)%string] /\
    List.length (filter is_foreign_call (trace o))
    = match env_lookup_symbol env handle ("sdot_" ++ suffix) with
      | Some _ => 2%nat
      | None => 0%nat
      end /\
    filter is_lsame_swap (trace o) = [] /\
    (result o = 0 \/ result o = PLAIN \/ result o = REQUIRED \/
     result o = UNKNOWN).
Proof.
  intros World env PLAIN REQUIRED UNKNOWN handle suffix w o. subst o.
  destruct (env_lookup_symbol env handle ("sdot_" ++ suffix)) as [a | ] eqn:E.
  - rewrite (autodetect_f2c_exec World env PLAIN REQUIRED UNKNOWN handle
               suffix a w E).
    cbv zeta. cbn [trace result].
    repeat (split; [reflexivity | ]).
    match goal with
    | |- context [IEEE754.fp_eqb ?x ?q] =>
        destruct (IEEE754.fp_eqb x q); [auto | ]
    end.
    match goal with
    | |- context [IEEE754.fp_eqb ?x ?q] =>
        destruct (IEEE754.fp_eqb x q); auto
    end.
  - unfold autodetect_f2c, lookup_symbol, sprintf.
    cbn [trigger bind exec answer]. rewrite E. cbn.
    repeat (split; [reflexivity | ]). auto.
Qed.

(** ** Holder variables of the exported symbol table *)

Lemma string_length_append (a b : string) :
  String.length (a ++ b) = (String.length a + String.length b)%nat.
Proof.
  induction a as [ | c a IH]; cbn; [reflexivity | ].
  rewrite IH. reflexivity.
Qed.

Lemma append_cancel_r (a b t : string) :
  (a ++ t)%string = (b ++ t)%string -> a = b.
Proof.
  revert b. induction a as [ | c a IH]; intros [ | c' b] H; cbn in H.
  - reflexivity.
  - exfalso. apply (f_equal String.length) in H. cbn in H.
    rewrite string_length_append in H. lia.
  - exfalso. apply (f_equal String.length) in H. cbn in H.
    rewrite string_length_append in H. lia.
  - injection H as Hc H. subst c'. rewrite (IH b H). reflexivity.
Qed.

Lemma append_associative (a b c : string) :
  ((a ++ b) ++ c)%string = (a ++ (b ++ c))%string.
Proof.
  induction a as [ | ch a IH]; cbn; [reflexivity | ].
  rewrite IH. reflexivity.
Qed.

(** The 64-bit holder of [a] is the 32-bit holder of [b] exactly when [b]
    is [a] followed by [64_]. *)
Lemma holder_collision (a b : string) :
  addr_holder_64 a = addr_holder b <-> b = (a ++ "64_")%string.
Proof.
  unfold addr_holder_64, addr_holder.
  change "64__addr"%string with ("64_" ++ "_addr")%string.
  rewrite <- append_associative.
  split.
  - intros H. apply append_cancel_r in H. symmetry. exact H.
  - intros H. subst b. reflexivity.
Qed.

(** X8: the declared holder variables are pairwise different exactly when
    the registry lists no name twice and never lists a name together with
    the same name followed by [64_] (whose 32-bit holder [name64__addr]
    would be the 64-bit holder of the shorter name). *)
Theorem holder_declarations_distinct :
  forall registry : list string,
    NoDup (holder_declarations registry) <->
    (NoDup registry /\
     forall a, In a registry -> ~ In (a ++ "64_")%string registry).
Proof.
  intros registry. unfold holder_declarations, EXPORTED_FUNCS.
  split.
  - intros H. split.
    + apply NoDup_app_remove_r in H. apply NoDup_map_inv in H. exact H.
    + intros a Ha Hb.
      assert (Hx : In (addr_holder_64 a) (map addr_holder registry)).
      { apply in_map_iff. exists (a ++ "64_")%string. split; [ | exact Hb].
        symmetry. apply holder_collision. reflexivity. }
      assert (Hy : In (addr_holder_64 a) (map addr_holder_64 registry))
        by (apply in_map; exact Ha).
      apply in_split in Hx. destruct Hx as (l1 & l2 & Hx).
      rewrite Hx, <- app_assoc in H. cbn [app] in H.
      apply NoDup_remove_2 in H. apply H.
      apply in_or_app. right. apply in_or_app. right. exact Hy.
  - intros [Hnd Hfree].
    apply NoDup_app.
    + apply NoDup_map_NoDup_ForallPairs; [ | exact Hnd].
      intros x y _ _ H. unfold addr_holder in H.
      apply append_cancel_r in H. exact H.
    + apply NoDup_map_NoDup_ForallPairs; [ | exact Hnd].
      intros x y _ _ H. unfold addr_holder_64 in H.
      apply append_cancel_r in H. exact H.
    + intros v Hv Hv'.
      apply in_map_iff in Hv. destruct Hv as (b & Hb & Hbin).
      apply in_map_iff in Hv'. destruct Hv' as (a & Ha & Hain).
      subst v. apply holder_collision in Ha. subst b.
      exact (Hfree a Hain Hbin).
Qed.

(** ** Bounds of the suffix search *)

Section SearchBounds.

Context {A : Type} (p : A -> bool).

Lemma upto_first_prefix (l : list A) :
  exists rest, l = upto_first p l ++ rest.
Proof.
  induction l as [ | x l [rest IH]]; cbn.
  - exists []. reflexivity.
  - destruct (p x).
    + exists l. reflexivity.
    + exists rest. cbn. rewrite <- IH. reflexivity.
Qed.

Lemma upto_first_length (l : list A) :
  (List.length (upto_first p l) <= List.length l)%nat.
Proof.
  destruct (upto_first_prefix l) as [rest H].
  rewrite H at 2. rewrite length_app. lia.
Qed.

End SearchBounds.

Lemma candidate_names_distinct : NoDup (map candidate_name candidate_order).
Proof.
  cbn. repeat constructor; cbn;
    intros H; repeat (destruct H as [H | H]; [discriminate H | ]);
    exact H.
Qed.

Lemma queries_not_foreign {World : Type} (env : Env World) (handle : Handle)
  (cs : list (string * string)) :
  filter is_foreign_call (map (query env handle) cs) = [].
Proof.
  induction cs as [ | c cs IH]; [reflexivity | exact IH].
Qed.

(** X10: [autodetect_symbol_suffix] hands at most twelve names to the
    loader, never the same name twice, and enters no foreign routine. *)
Theorem autodetect_symbol_suffix_bounds :
  forall (World : Type) (env : Env World) (handle : Handle) (w : World),
    let o := exec env (autodetect_symbol_suffix handle) w in
    (List.length (queried_names (trace o)) <= 12)%nat /\
    NoDup (queried_names (trace o)) /\
    filter is_foreign_call (trace o) = [].
Proof.
  intros World env handle w o. subst o.
  rewrite autodetect_symbol_suffix_exec. cbn [trace].
  rewrite queried_names_queries, queries_not_foreign.
  split; [ | split; [ | reflexivity]].
  - rewrite length_map.
    exact (upto_first_length (resolves env handle) candidate_order).
  - pose proof candidate_names_distinct as Hnd.
    destruct (upto_first_prefix (resolves env handle) candidate_order)
      as [rest Hrest].
    rewrite Hrest, map_app in Hnd.
    exact (NoDup_app_remove_r _ _ Hnd).
Qed.
